(** * golwarc: the Spider crawler, the SSRF URL validator and the URL resolver

    A shallow embedding of
      - [crawlers/spider.go]  (NewSpider, Run, crawlURL, ResolveURL, Stop, ...)
      - package [libs]        (Validator.ValidateURL and its helpers)
    together with the parts of Go's standard library these functions call
    ([strings], [net/url], [net.IP] classification), transcribed from the
    go1.25.0 sources, so that the repository code can be evaluated on
    concrete URLs. *)

From Stdlib Require Import String Ascii List ZArith NArith Bool Lia.
From stdpp Require Import gmap strings.

Local Open Scope string_scope.
Local Open Scope Z_scope.

(** ** Byte helpers *)

Definition byte_le (a b : ascii) : bool := (N_of_ascii a <=? N_of_ascii b)%N.

(** [lo <= c && c <= hi] *)
Definition between (lo hi c : ascii) : bool := byte_le lo c && byte_le c hi.

Fixpoint mem_byte (c : ascii) (l : list ascii) : bool :=
  match l with
  | [] => false
  | x :: l' => Ascii.eqb c x || mem_byte c l'
  end.

Definition len (s : string) : Z := Z.of_nat (String.length s).

(** ** Package [strings] *)

Module strings.

(** [s[n:]] *)
Fixpoint drop (n : nat) (s : string) : string :=
  match n, s with
  | O, _ => s
  | S n', String _ s' => drop n' s'
  | S _, EmptyString => EmptyString
  end.

(** [s[:n]] *)
Fixpoint take (n : nat) (s : string) : string :=
  match n, s with
  | O, _ => EmptyString
  | S n', String c s' => String c (take n' s')
  | S _, EmptyString => EmptyString
  end.

(** [s[i:]] and [s[:i]] for a Go [int] index. *)
Definition from (i : Z) (s : string) : string := drop (Z.to_nat i) s.
Definition upto (i : Z) (s : string) : string := take (Z.to_nat i) s.

Fixpoint HasPrefix (s prefix : string) : bool :=
  match prefix, s with
  | EmptyString, _ => true
  | String p ps, String c cs => Ascii.eqb c p && HasPrefix cs ps
  | String _ _, EmptyString => false
  end.

Definition HasSuffix (s suffix : string) : bool :=
  (len suffix <=? len s) && String.eqb (from (len s - len suffix) s) suffix.

(** [strings.Index]: the first position of [substr], or [-1]. *)
Fixpoint Index (s substr : string) : Z :=
  if HasPrefix s substr then 0
  else match s with
       | EmptyString => -1
       | String _ s' => let i := Index s' substr in if i <? 0 then -1 else i + 1
       end.

(** [strings.LastIndex]: the last position of [substr], or [-1]. *)
Fixpoint LastIndex (s substr : string) : Z :=
  match s with
  | EmptyString => if HasPrefix s substr then 0 else -1
  | String _ s' =>
      let i := LastIndex s' substr in
      if 0 <=? i then i + 1
      else if HasPrefix s substr then 0 else -1
  end.

Definition LastIndexByte (s : string) (c : ascii) : Z :=
  LastIndex s (String c EmptyString).

Definition Contains (s substr : string) : bool := 0 <=? Index s substr.

(** [strings.Cut]: [(before, after, found)]. *)
Definition Cut (s sep : string) : string * string * bool :=
  let i := Index s sep in
  if 0 <=? i then (upto i s, from (i + len sep) s, true)
  else (s, "", false).

(** [strings.Count(s, sep)] for a one-byte separator, the only use made
    of it here. *)
Fixpoint CountByte (s : string) (c : ascii) : Z :=
  match s with
  | EmptyString => 0
  | String x s' => (if Ascii.eqb x c then 1 else 0) + CountByte s' c
  end.

Definition lower_byte (c : ascii) : ascii :=
  if between "A" "Z" c then ascii_of_N (N_of_ascii c + 32) else c.

(** [strings.ToLower] on the ASCII range. Bytes above 0x7f are kept, where
    Go lower-cases the runes they encode. The callers below compare the
    result with ASCII strings without i and k, the only ASCII letters a
    rune outside ASCII lower-cases to, so the comparisons come out the
    same. *)
Fixpoint ToLower (s : string) : string :=
  match s with
  | EmptyString => EmptyString
  | String c s' => String (lower_byte c) (ToLower s')
  end.

End strings.

(** ** Package [net/url] *)

Module url.
Import strings.

(** The errors [url.Parse] reports. *)
Inductive Error : Type :=
| ErrControlCharacter              (* invalid control character in URL *)
| ErrEmptyURL                      (* empty url *)
| ErrMissingScheme                 (* missing protocol scheme *)
| ErrInvalidURIForRequest          (* invalid URI for request *)
| ErrColonInFirstSegment           (* first path segment in URL cannot contain colon *)
| ErrInvalidUserinfo               (* net/url: invalid userinfo *)
| ErrMissingBracket                (* missing ']' in host *)
| ErrInvalidPort (port : string)   (* invalid port %q after host *)
| EscapeError (s : string)         (* invalid URL escape %q *)
| InvalidHostError (s : string).   (* invalid character %q in host name *)

Inductive encoding : Type :=
| encodePath
| encodePathSegment
| encodeHost
| encodeZone
| encodeUserPassword
| encodeQueryComponent
| encodeFragment.

Definition encoding_eqb (a b : encoding) : bool :=
  match a, b with
  | encodePath, encodePath
  | encodePathSegment, encodePathSegment
  | encodeHost, encodeHost
  | encodeZone, encodeZone
  | encodeUserPassword, encodeUserPassword
  | encodeQueryComponent, encodeQueryComponent
  | encodeFragment, encodeFragment => true
  | _, _ => false
  end.

Record Userinfo : Type := mkUserinfo {
  username : string;
  password : string;
  passwordSet : bool
}.

Record URL : Type := mkURL {
  Scheme : string;
  Opaque : string;
  User : option Userinfo;
  Host : string;
  Path : string;
  RawPath : string;
  OmitHost : bool;
  ForceQuery : bool;
  RawQuery : string;
  Fragment : string;
  RawFragment : string
}.

(** [new(URL)] *)
Definition zeroURL : URL :=
  mkURL "" "" None "" "" "" false false "" "" "".

Definition isAlpha (c : ascii) : bool := between "a" "z" c || between "A" "Z" c.
Definition isDigit (c : ascii) : bool := between "0" "9" c.

Definition ishex (c : ascii) : bool :=
  between "0" "9" c || between "a" "f" c || between "A" "F" c.

(** [unhex]; the source panics outside the hex digits, which its callers
    exclude with [ishex]. *)
Definition unhex (c : ascii) : N :=
  if between "0" "9" c then N_of_ascii c - 48
  else if between "a" "f" c then N_of_ascii c - 97 + 10
  else if between "A" "F" c then N_of_ascii c - 65 + 10
  else 0.

(** [unhex(a)<<4 | unhex(b)] *)
Definition unhex2 (a b : ascii) : ascii :=
  ascii_of_N (N.lor (N.shiftl (unhex a) 4) (unhex b)).

Definition dquote : ascii := "034".

Definition shouldEscape (c : ascii) (mode : encoding) : bool :=
  if isAlpha c || isDigit c then false
  else if (encoding_eqb mode encodeHost || encoding_eqb mode encodeZone)
          && mem_byte c ["!"; "$"; "&"; "'"; "("; ")"; "*"; "+"; ","; ";"; "=";
                         ":"; "["; "]"; "<"; ">"; dquote]%char
  then false
  else if mem_byte c ["-"; "_"; "."; "~"]%char then false
  else if mem_byte c ["$"; "&"; "+"; ","; "/"; ":"; ";"; "="; "?"; "@"]%char
          && match mode with
             | encodePath | encodePathSegment | encodeUserPassword
             | encodeQueryComponent | encodeFragment => true
             | encodeHost | encodeZone => false
             end
  then match mode with
       | encodePath => Ascii.eqb c "?"
       | encodePathSegment => mem_byte c ["/"; ";"; ","; "?"]%char
       | encodeUserPassword => mem_byte c ["@"; "/"; "?"; ":"]%char
       | encodeQueryComponent => true
       | _ => false
       end
  else if encoding_eqb mode encodeFragment && mem_byte c ["!"; "("; ")"; "*"]%char
  then false
  else true.

(** First pass of [unescape]: every [%] is followed by two hex digits, and
    the host and zone modes restrict what may be written. *)
Fixpoint unescape_check (mode : encoding) (s : string) : option Error :=
  match s with
  | EmptyString => None
  | String c rest =>
      if Ascii.eqb c "%" then
        match rest with
        | String h1 (String h2 rest') =>
            if negb (ishex h1 && ishex h2) then Some (EscapeError (take 3 s))
            else if encoding_eqb mode encodeHost && (unhex h1 <? 8)%N
                    && negb (String.eqb (take 3 s) "%25")
            then Some (EscapeError (take 3 s))
            else if encoding_eqb mode encodeZone
                    && negb (String.eqb (take 3 s) "%25")
                    && negb (Ascii.eqb (unhex2 h1 h2) " ")
                    && shouldEscape (unhex2 h1 h2) encodeHost
            then Some (EscapeError (take 3 s))
            else unescape_check mode rest'
        | _ => Some (EscapeError (take 3 s))
        end
      else if (encoding_eqb mode encodeHost || encoding_eqb mode encodeZone)
              && (N_of_ascii c <? 128)%N && shouldEscape c encodeHost
              && negb (Ascii.eqb c "+")
      then Some (InvalidHostError (String c EmptyString))
      else unescape_check mode rest
  end.

(** Second pass of [unescape]: decoding. *)
Fixpoint unescape_decode (mode : encoding) (s : string) : string :=
  match s with
  | EmptyString => EmptyString
  | String c rest =>
      if Ascii.eqb c "%" then
        match rest with
        | String h1 (String h2 rest') =>
            String (unhex2 h1 h2) (unescape_decode mode rest')
        | _ => EmptyString
        end
      else if Ascii.eqb c "+" then
        String (if encoding_eqb mode encodeQueryComponent then " " else "+")%char
               (unescape_decode mode rest)
      else String c (unescape_decode mode rest)
  end.

Definition unescape (s : string) (mode : encoding) : Error + string :=
  match unescape_check mode s with
  | Some e => inl e
  | None => inr (unescape_decode mode s)
  end.

Definition upperhex (n : N) : ascii :=
  if (n <? 10)%N then ascii_of_N (48 + n) else ascii_of_N (65 + (n - 10)).

Fixpoint escape (s : string) (mode : encoding) : string :=
  match s with
  | EmptyString => EmptyString
  | String c s' =>
      if Ascii.eqb c " " && encoding_eqb mode encodeQueryComponent
      then String "+" (escape s' mode)
      else if shouldEscape c mode
      then String "%" (String (upperhex (N.shiftr (N_of_ascii c) 4))
                         (String (upperhex (N.land (N_of_ascii c) 15))
                            (escape s' mode)))
      else String c (escape s' mode)
  end.

Fixpoint validEncoded (s : string) (mode : encoding) : bool :=
  match s with
  | EmptyString => true
  | String c s' =>
      if mem_byte c ["!"; "$"; "&"; "'"; "("; ")"; "*"; "+"; ","; ";"; "="; ":"; "@";
                     "["; "]"; "%"]%char
      then validEncoded s' mode
      else if shouldEscape c mode then false
      else validEncoded s' mode
  end.

Fixpoint validUserinfo (s : string) : bool :=
  match s with
  | EmptyString => true
  | String r s' =>
      if isAlpha r || isDigit r
         || mem_byte r ["-"; "."; "_"; ":"; "~"; "!"; "$"; "&"; "'"; "("; ")"; "*";
                        "+"; ","; ";"; "="; "%"; "@"]%char
      then validUserinfo s'
      else false
  end.

Fixpoint allDigits (s : string) : bool :=
  match s with
  | EmptyString => true
  | String b s' => if isDigit b then allDigits s' else false
  end.

Definition validOptionalPort (port : string) : bool :=
  match port with
  | EmptyString => true
  | String c digits => if Ascii.eqb c ":" then allDigits digits else false
  end.

Fixpoint stringContainsCTLByte (s : string) : bool :=
  match s with
  | EmptyString => false
  | String b s' =>
      if (N_of_ascii b <? 32)%N || (N_of_ascii b =? 127)%N then true
      else stringContainsCTLByte s'
  end.

(** The loop of [getScheme]; [i] is the index of the first byte of [rest]
    in [rawURL]. *)
Fixpoint getScheme_loop (rawURL : string) (i : nat) (rest : string)
  : Error + (string * string) :=
  match rest with
  | EmptyString => inr ("", rawURL)
  | String c rest' =>
      if isAlpha c then getScheme_loop rawURL (S i) rest'
      else if isDigit c || mem_byte c ["+"; "-"; "."]%char then
        match i with
        | O => inr ("", rawURL)
        | S _ => getScheme_loop rawURL (S i) rest'
        end
      else if Ascii.eqb c ":" then
        match i with
        | O => inl ErrMissingScheme
        | S _ => inr (take i rawURL, rest')
        end
      else inr ("", rawURL)
  end.

Definition getScheme (rawURL : string) : Error + (string * string) :=
  getScheme_loop rawURL 0 rawURL.

(** [parseHost]: the host part of an authority, [host] or [host:port],
    where [host] may be a bracketed IP literal. *)
Definition parseHost (host : string) : Error + string :=
  let plain :=
    match unescape host encodeHost with
    | inl e => inl e
    | inr h => inr h
    end in
  if HasPrefix host "[" then
    let i := LastIndex host "]" in
    if i <? 0 then inl ErrMissingBracket
    else
      let colonPort := from (i + 1) host in
      if negb (validOptionalPort colonPort) then inl (ErrInvalidPort colonPort)
      else
        let zone := Index (upto i host) "%25" in
        if 0 <=? zone then
          match unescape (upto zone host) encodeHost with
          | inl e => inl e
          | inr host1 =>
              match unescape (upto (i - zone) (from zone host)) encodeZone with
              | inl e => inl e
              | inr host2 =>
                  match unescape (from i host) encodeHost with
                  | inl e => inl e
                  | inr host3 => inr (host1 +:+ host2 +:+ host3)
                  end
              end
          end
        else plain
  else
    let i := LastIndex host ":" in
    if negb (i =? -1) && negb (validOptionalPort (from i host))
    then inl (ErrInvalidPort (from i host))
    else plain.

Definition parseAuthority (authority : string)
  : Error + (option Userinfo * string) :=
  let i := LastIndex authority "@" in
  match (if i <? 0 then parseHost authority
         else parseHost (from (i + 1) authority)) with
  | inl e => inl e
  | inr host =>
      if i <? 0 then inr (None, host)
      else
        let userinfo := upto i authority in
        if negb (validUserinfo userinfo) then inl ErrInvalidUserinfo
        else if negb (Contains userinfo ":") then
          match unescape userinfo encodeUserPassword with
          | inl e => inl e
          | inr u => inr (Some (mkUserinfo u "" false), host)
          end
        else
          let '(uname, pass, _) := Cut userinfo ":" in
          match unescape uname encodeUserPassword with
          | inl e => inl e
          | inr u =>
              match unescape pass encodeUserPassword with
              | inl e => inl e
              | inr p => inr (Some (mkUserinfo u p true), host)
              end
          end
  end.

(** [u.setPath(p)] *)
Definition setPath (u : URL) (p : string) : Error + URL :=
  match unescape p encodePath with
  | inl e => inl e
  | inr path =>
      let raw := if String.eqb p (escape path encodePath) then "" else p in
      inr (mkURL (Scheme u) (Opaque u) (User u) (Host u) path raw
             (OmitHost u) (ForceQuery u) (RawQuery u) (Fragment u) (RawFragment u))
  end.

(** [u.setFragment(f)] *)
Definition setFragment (u : URL) (f : string) : Error + URL :=
  match unescape f encodeFragment with
  | inl e => inl e
  | inr frag =>
      let raw := if String.eqb f (escape frag encodeFragment) then "" else f in
      inr (mkURL (Scheme u) (Opaque u) (User u) (Host u) (Path u) (RawPath u)
             (OmitHost u) (ForceQuery u) (RawQuery u) frag raw)
  end.

(** The tail of [parse], from the authority on; [sch], [force] and [query]
    are the fields already set. *)
Definition parse_authority_path (sch : string) (force : bool) (query rest : string)
    (viaRequest : bool) : Error + URL :=
  if (negb (String.eqb sch "") || negb viaRequest && negb (HasPrefix rest "///"))
     && HasPrefix rest "//"
  then
    let authority0 := from 2 rest in
    let i := Index authority0 "/" in
    let authority := if 0 <=? i then upto i authority0 else authority0 in
    let rest' := if 0 <=? i then from i authority0 else "" in
    match parseAuthority authority with
    | inl e => inl e
    | inr (user, host) =>
        setPath (mkURL sch "" user host "" "" false force query "" "") rest'
    end
  else if negb (String.eqb sch "") && HasPrefix rest "/"
  then setPath (mkURL sch "" None "" "" "" true force query "" "") rest
  else setPath (mkURL sch "" None "" "" "" false force query "" "") rest.

(** [parse(rawURL, viaRequest)]: a URL without its fragment. *)
Definition parse (rawURL : string) (viaRequest : bool) : Error + URL :=
  if stringContainsCTLByte rawURL then inl ErrControlCharacter
  else if String.eqb rawURL "" && viaRequest then inl ErrEmptyURL
  else if String.eqb rawURL "*"
  then inr (mkURL "" "" None "" "*" "" false false "" "" "")
  else
    match getScheme rawURL with
    | inl e => inl e
    | inr (scheme0, rest0) =>
        let sch := ToLower scheme0 in
        let '(rest, force, query) :=
          if HasSuffix rest0 "?" && (CountByte rest0 "?" =? 1)
          then (upto (len rest0 - 1) rest0, true, "")
          else let '(before, after, _) := Cut rest0 "?" in (before, false, after) in
        if negb (HasPrefix rest "/") then
          if negb (String.eqb sch "")
          then inr (mkURL sch rest None "" "" "" false force query "" "")
          else if viaRequest then inl ErrInvalidURIForRequest
          else
            let '(segment, _, _) := Cut rest "/" in
            if Contains segment ":" then inl ErrColonInFirstSegment
            else parse_authority_path sch force query rest viaRequest
        else parse_authority_path sch force query rest viaRequest
    end.

(** [url.Parse] *)
Definition Parse (rawURL : string) : Error + URL :=
  let '(u, frag, _) := Cut rawURL "#" in
  match parse u false with
  | inl e => inl e
  | inr url =>
      if String.eqb frag "" then inr url
      else setFragment url frag
  end.

(** [u.EscapedPath()] *)
Definition EscapedPath (u : URL) : string :=
  if negb (String.eqb (RawPath u) "") && validEncoded (RawPath u) encodePath
     && match unescape (RawPath u) encodePath with
        | inr p => String.eqb p (Path u)
        | inl _ => false
        end
  then RawPath u
  else if String.eqb (Path u) "*" then "*"
  else escape (Path u) encodePath.

(** [u.EscapedFragment()] *)
Definition EscapedFragment (u : URL) : string :=
  if negb (String.eqb (RawFragment u) "") && validEncoded (RawFragment u) encodeFragment
     && match unescape (RawFragment u) encodeFragment with
        | inr f => String.eqb f (Fragment u)
        | inl _ => false
        end
  then RawFragment u
  else escape (Fragment u) encodeFragment.

(** [Userinfo.String] *)
Definition Userinfo_String (ui : Userinfo) : string :=
  escape (username ui) encodeUserPassword
  +:+ (if passwordSet ui then ":" +:+ escape (password ui) encodeUserPassword else "").

Definition isSome {A} (o : option A) : bool :=
  match o with Some _ => true | None => false end.

(** [URL.String]: the URL reassembled. *)
Definition URL_String (u : URL) : string :=
  let buf0 := if negb (String.eqb (Scheme u) "") then Scheme u +:+ ":" else "" in
  let buf1 :=
    if negb (String.eqb (Opaque u) "") then buf0 +:+ Opaque u
    else
      let buf_auth :=
        if negb (String.eqb (Scheme u) "") || negb (String.eqb (Host u) "")
           || isSome (User u)
        then
          if OmitHost u && String.eqb (Host u) "" && negb (isSome (User u))
          then buf0
          else
            buf0
            +:+ (if negb (String.eqb (Host u) "") || negb (String.eqb (Path u) "")
                    || isSome (User u) then "//" else "")
            +:+ match User u with
                | Some ui => Userinfo_String ui +:+ "@"
                | None => ""
                end
            +:+ (if negb (String.eqb (Host u) "") then escape (Host u) encodeHost else "")
        else buf0 in
      let path := EscapedPath u in
      let buf_slash :=
        if negb (String.eqb path "") && negb (HasPrefix path "/")
           && negb (String.eqb (Host u) "")
        then buf_auth +:+ "/" else buf_auth in
      let buf_dot :=
        if String.eqb buf_slash "" then
          let '(segment, _, _) := Cut path "/" in
          if Contains segment ":" then "./" else ""
        else buf_slash in
      buf_dot +:+ path in
  let buf2 :=
    if ForceQuery u || negb (String.eqb (RawQuery u) "")
    then buf1 +:+ "?" +:+ RawQuery u else buf1 in
  if negb (String.eqb (Fragment u) "") then buf2 +:+ "#" +:+ EscapedFragment u
  else buf2.

(** The dot-segment loop of [resolvePath]: [dst] is the text after the
    leading slash already written, [elem] the element last cut off. *)
Fixpoint resolvePath_loop (fuel : nat) (remaining dst : string) (first : bool)
  : string * string :=
  let '(elem, remaining', found) := Cut remaining "/" in
  let '(dst', first') :=
    if String.eqb elem "." then (dst, false)
    else if String.eqb elem ".." then
      let index := LastIndexByte dst "/" in
      if index =? -1 then ("", true) else (upto index dst, first)
    else ((if first then dst else dst +:+ "/") +:+ elem, false) in
  match fuel with
  | O => (elem, dst')
  | S fuel' =>
      if found then resolvePath_loop fuel' remaining' dst' first'
      else (elem, dst')
  end.

(** [resolvePath(base, ref)]: [ref] applied to [base] as RFC 3986
    section 5.2 says, dot segments removed. The loop cuts one element off
    [full] per round, so [String.length full] rounds are enough. *)
Definition resolvePath (base ref : string) : string :=
  let full :=
    if String.eqb ref "" then base
    else if negb (HasPrefix ref "/")
    then upto (LastIndex base "/" + 1) base +:+ ref
    else ref in
  if String.eqb full "" then ""
  else
    let '(elem, dst) := resolvePath_loop (String.length full) full "" true in
    let r := "/" +:+ dst
             +:+ (if String.eqb elem "." || String.eqb elem ".." then "/" else "") in
    if (1 <? len r) && HasPrefix (from 1 r) "/" then from 1 r else r.

(** [u.ResolveReference(ref)]; the source ignores the error of [setPath]
    and keeps the URL as it was on one. *)
Definition setPath_ignore (u : URL) (p : string) : URL :=
  match setPath u p with
  | inr u' => u'
  | inl _ => u
  end.

Definition ResolveReference (u ref : URL) : URL :=
  let sch := if String.eqb (Scheme ref) "" then Scheme u else Scheme ref in
  if negb (String.eqb (Scheme ref) "") || negb (String.eqb (Host ref) "")
     || isSome (User ref)
  then
    setPath_ignore
      (mkURL sch (Opaque ref) (User ref) (Host ref) (Path ref) (RawPath ref)
         (OmitHost ref) (ForceQuery ref) (RawQuery ref) (Fragment ref) (RawFragment ref))
      (resolvePath (EscapedPath ref) "")
  else if negb (String.eqb (Opaque ref) "")
  then mkURL sch (Opaque ref) None "" "" (RawPath ref)
         (OmitHost ref) (ForceQuery ref) (RawQuery ref) (Fragment ref) (RawFragment ref)
  else
    let inherit_query :=
      String.eqb (Path ref) "" && negb (ForceQuery ref) && String.eqb (RawQuery ref) "" in
    let query := if inherit_query then RawQuery u else RawQuery ref in
    let inherit_frag := inherit_query && String.eqb (Fragment ref) "" in
    let frag := if inherit_frag then Fragment u else Fragment ref in
    let rawfrag := if inherit_frag then RawFragment u else RawFragment ref in
    if String.eqb (Path ref) "" && negb (String.eqb (Opaque u) "")
    then mkURL sch (Opaque u) None "" "" (RawPath ref)
           (OmitHost ref) (ForceQuery ref) query frag rawfrag
    else
      setPath_ignore
        (mkURL sch (Opaque ref) (User u) (Host u) (Path ref) (RawPath ref)
           (OmitHost ref) (ForceQuery ref) query frag rawfrag)
        (resolvePath (EscapedPath u) (EscapedPath ref)).

(** [splitHostPort] *)
Definition splitHostPort (hostPort : string) : string * string :=
  let colon := LastIndexByte hostPort ":" in
  let '(host, port) :=
    if negb (colon =? -1) && validOptionalPort (from colon hostPort)
    then (upto colon hostPort, from (colon + 1) hostPort)
    else (hostPort, "") in
  if HasPrefix host "[" && HasSuffix host "]"
  then (upto (len host - 2) (from 1 host), port)
  else (host, port).

(** [u.Hostname()] *)
Definition Hostname (u : URL) : string := fst (splitHostPort (Host u)).

End url.

(** ** Package [net]: IP addresses and their classification *)

Module net.

(** [net.IP] is a byte slice: 4 bytes for IPv4, 16 for IPv6. *)
Definition IP : Type := list Z.

Definition IPv4len : nat := 4.
Definition IPv6len : nat := 16.

Definition IPv6loopback : IP := [0; 0; 0; 0; 0; 0; 0; 0; 0; 0; 0; 0; 0; 0; 0; 1].
Definition v4InV6Prefix : list Z := [0; 0; 0; 0; 0; 0; 0; 0; 0; 0; 255; 255].

Definition byte_at (ip : IP) (i : nat) : Z := nth i ip 0.

Definition bytes_eqb (a b : list Z) : bool :=
  (length a =? length b)%nat && forallb (fun p => fst p =? snd p) (combine a b).

Definition isZeros (p : list Z) : bool := forallb (fun b => b =? 0) p.

(** [ip.To4()]: the 4-byte form of an IPv4 address, [None] for [nil]. *)
Definition To4 (ip : IP) : option IP :=
  if (length ip =? IPv4len)%nat then Some ip
  else if (length ip =? IPv6len)%nat && isZeros (firstn 10 ip)
          && (byte_at ip 10 =? 255) && (byte_at ip 11 =? 255)
  then Some (skipn 12 ip)
  else None.

(** [ip.Equal(x)] *)
Definition Equal (ip x : IP) : bool :=
  if (length ip =? length x)%nat then bytes_eqb ip x
  else if (length ip =? IPv4len)%nat && (length x =? IPv6len)%nat
  then bytes_eqb (firstn 12 x) v4InV6Prefix && bytes_eqb ip (skipn 12 x)
  else if (length ip =? IPv6len)%nat && (length x =? IPv4len)%nat
  then bytes_eqb (firstn 12 ip) v4InV6Prefix && bytes_eqb (skipn 12 ip) x
  else false.

Definition IsLoopback (ip : IP) : bool :=
  match To4 ip with
  | Some ip4 => byte_at ip4 0 =? 127
  | None => Equal ip IPv6loopback
  end.

(** RFC 1918 for IPv4, RFC 4193 ([fc00::/7]) for IPv6. *)
Definition IsPrivate (ip : IP) : bool :=
  match To4 ip with
  | Some ip4 =>
      (byte_at ip4 0 =? 10)
      || ((byte_at ip4 0 =? 172) && (Z.land (byte_at ip4 1) 240 =? 16))
      || ((byte_at ip4 0 =? 192) && (byte_at ip4 1 =? 168))
  | None => (length ip =? IPv6len)%nat && (Z.land (byte_at ip 0) 254 =? 252)
  end.

Definition IsLinkLocalUnicast (ip : IP) : bool :=
  match To4 ip with
  | Some ip4 => (byte_at ip4 0 =? 169) && (byte_at ip4 1 =? 254)
  | None =>
      (length ip =? IPv6len)%nat && (byte_at ip 0 =? 254)
      && (Z.land (byte_at ip 1) 192 =? 128)
  end.

Definition IsMulticast (ip : IP) : bool :=
  match To4 ip with
  | Some ip4 => Z.land (byte_at ip4 0) 240 =? 224
  | None => (length ip =? IPv6len)%nat && (byte_at ip 0 =? 255)
  end.

(** What a failed [net.LookupIP] returns. *)
Inductive DNSError : Type := mkDNSError (msg : string).

End net.

(** ** Effects of the crawler

    The code talks to the outside through four calls: [net.LookupIP], the
    HTTP client's [Do], goquery's [NewDocumentFromReader] and the document
    handler the caller registered. A function that makes such calls is a
    tree: a leaf is the value it returns, a node is one call with the rest
    of the function for every answer the call can give. *)

Module effects.

(** An [*http.Request], by what [crawlURL] puts into it; [URL] is kept
    as the string [http.NewRequest] parsed. *)
Record Request : Type := mkRequest {
  Method : string;
  URL : string;
  HeaderUserAgent : string
}.

Inductive HTTPResult : Type :=
| TransportError (msg : string)
| Response (StatusCode : Z) (Body : string).

(** A parsed document ([*goquery.Document]). *)
Inductive Document : Type := mkDocument (html : string).

Inductive Eff (A : Type) : Type :=
| Ret (a : A)
| LookupIP (hostname : string) (k : net.DNSError + list net.IP -> Eff A)
| HttpDo (req : Request) (k : HTTPResult -> Eff A)
| NewDocumentFromReader (body : string) (k : string + Document -> Eff A)
| CallHandler (doc : Document) (urlStr : string) (k : option string -> Eff A).

Arguments Ret {A} a.
Arguments LookupIP {A} hostname k.
Arguments HttpDo {A} req k.
Arguments NewDocumentFromReader {A} body k.
Arguments CallHandler {A} doc urlStr k.

(** The outside world as an oracle: what each call answers. *)
Record World : Type := mkWorld {
  dns : string -> net.DNSError + list net.IP;
  http : Request -> HTTPResult;
  goquery : string -> string + Document;
  handler : Document -> string -> option string
}.

(** What a run did, in order. *)
Inductive Event : Type :=
| EvLookupIP (hostname : string)
| EvHttpDo (req : Request)
| EvNewDocument (body : string)
| EvOnDocument (doc : Document) (urlStr : string).

(** Running a tree against a world: the calls made and the value returned. *)
Fixpoint run {A} (w : World) (p : Eff A) : list Event * A :=
  match p with
  | Ret a => ([], a)
  | LookupIP h k =>
      let '(t, a) := run w (k (dns w h)) in (EvLookupIP h :: t, a)
  | HttpDo req k =>
      let '(t, a) := run w (k (http w req)) in (EvHttpDo req :: t, a)
  | NewDocumentFromReader body k =>
      let '(t, a) := run w (k (goquery w body)) in (EvNewDocument body :: t, a)
  | CallHandler doc u k =>
      let '(t, a) := run w (k (handler w doc u)) in (EvOnDocument doc u :: t, a)
  end.

Definition calls {A} (w : World) (p : Eff A) : list Event := fst (run w p).
Definition result {A} (w : World) (p : Eff A) : A := snd (run w p).

Definition is_lookup (e : Event) : bool :=
  match e with EvLookupIP _ => true | _ => false end.

Definition is_http (e : Event) : bool :=
  match e with EvHttpDo _ => true | _ => false end.

End effects.

(** ** Package [libs]: the SSRF validator *)

Module libs.
Import effects.

Inductive IPError : Type :=
| ErrLoopback      (* loopback addresses are not allowed *)
| ErrPrivate       (* private IP addresses are not allowed *)
| ErrLinkLocal     (* link-local addresses are not allowed *)
| ErrMulticast.    (* multicast addresses are not allowed *)

(** The errors of [ValidateURL], one per [return] of the source. *)
Inductive ValidationError : Type :=
| ErrEmptyURL                                   (* URL cannot be empty *)
| ErrInvalidFormat (e : url.Error)              (* invalid URL format: %w *)
| ErrDisallowedScheme (scheme : string)         (* disallowed URL scheme: %s *)
| ErrEmptyHostname                              (* hostname cannot be empty *)
| ErrLocalhost                                  (* localhost URLs are not allowed ... *)
| ErrCannotResolve (e : net.DNSError)           (* cannot resolve hostname: %w *)
| ErrBlockedIP (ip : net.IP) (why : IPError).   (* hostname resolves to blocked IP %s: %w *)

Definition allowedSchemes : gmap string bool :=
  <["http" := true]> (<["https" := true]> ∅).

(** [validateScheme] *)
Definition validateScheme (scheme : string) : option ValidationError :=
  if negb (default false (allowedSchemes !! scheme))
  then Some (ErrDisallowedScheme scheme)
  else None.

Definition localhostNames : list string :=
  ["localhost"; "127.0.0.1"; "::1"; "0.0.0.0"; "::"].

(** [isLocalhost] *)
Definition isLocalhost (hostname : string) : bool :=
  let hostname := strings.ToLower hostname in
  existsb (fun local => String.eqb hostname local) localhostNames.

(** [validateIP] *)
Definition validateIP (ip : net.IP) : option IPError :=
  if net.IsLoopback ip then Some ErrLoopback
  else if net.IsPrivate ip then Some ErrPrivate
  else if net.IsLinkLocalUnicast ip then Some ErrLinkLocal
  else if net.IsMulticast ip then Some ErrMulticast
  else None.

(** The loop of [validateHostname] over the resolved addresses. *)
Fixpoint validateIPs (ips : list net.IP) : option ValidationError :=
  match ips with
  | [] => None
  | ip :: rest =>
      match validateIP ip with
      | Some e => Some (ErrBlockedIP ip e)
      | None => validateIPs rest
      end
  end.

(** [validateHostname] *)
Definition validateHostname (hostname : string) : Eff (option ValidationError) :=
  if String.eqb hostname "" then Ret (Some ErrEmptyHostname)
  else if isLocalhost hostname then Ret (Some ErrLocalhost)
  else LookupIP hostname (fun r =>
         match r with
         | inl e => Ret (Some (ErrCannotResolve e))
         | inr ips => Ret (validateIPs ips)
         end).

(** [Validator.ValidateURL]; [None] is the [nil] error. *)
Definition ValidateURL (rawURL : string) : Eff (option ValidationError) :=
  if String.eqb rawURL "" then Ret (Some ErrEmptyURL)
  else
    match url.Parse rawURL with
    | inl e => Ret (Some (ErrInvalidFormat e))
    | inr parsedURL =>
        let scheme := strings.ToLower (url.Scheme parsedURL) in
        match validateScheme scheme with
        | Some e => Ret (Some e)
        | None => validateHostname (url.Hostname parsedURL)
        end
    end.

End libs.

(** ** [crawlers/spider.go] *)

Module crawlers.
Import effects.

(** [time.Second], a [time.Duration] counts nanoseconds. *)
Definition Second : Z := 1000000000.

(** [http.StatusOK] *)
Definition StatusOK : Z := 200.

Record SpiderConfig : Type := mkSpiderConfig {
  MaxDepth : Z;
  Concurrency : Z;
  UserAgent : string;
  Delay : Z;
  Timeout : Z
}.

(** The [Spider] struct. [httpTimeout] is [httpClient.Timeout];
    [onDocument] says whether a handler is registered (what the handler
    does is the world's); [wg] is the counter of the wait group. *)
Record Spider : Type := mkSpider {
  httpTimeout : Z;
  maxDepth : Z;
  concurrency : Z;
  visited : gmap string bool;
  queue : list string;
  userAgent : string;
  delay : Z;
  onDocument : bool;
  running : bool;
  wg : Z
}.

Definition set_visited (v : gmap string bool) (s : Spider) : Spider :=
  mkSpider (httpTimeout s) (maxDepth s) (concurrency s) v (queue s)
    (userAgent s) (delay s) (onDocument s) (running s) (wg s).

Definition set_queue (q : list string) (s : Spider) : Spider :=
  mkSpider (httpTimeout s) (maxDepth s) (concurrency s) (visited s) q
    (userAgent s) (delay s) (onDocument s) (running s) (wg s).

Definition set_running (b : bool) (s : Spider) : Spider :=
  mkSpider (httpTimeout s) (maxDepth s) (concurrency s) (visited s) (queue s)
    (userAgent s) (delay s) (onDocument s) b (wg s).

Definition set_wg (n : Z) (s : Spider) : Spider :=
  mkSpider (httpTimeout s) (maxDepth s) (concurrency s) (visited s) (queue s)
    (userAgent s) (delay s) (onDocument s) (running s) n.

(** [NewSpider] *)
Definition NewSpider (config : SpiderConfig) : Spider :=
  let MaxDepth' := if MaxDepth config =? 0 then 3 else MaxDepth config in
  let Concurrency' := if Concurrency config =? 0 then 5 else Concurrency config in
  let UserAgent' :=
    if String.eqb (UserAgent config) "" then "Mozilla/5.0 (compatible; GolwarcBot/1.0)"
    else UserAgent config in
  let Timeout' := if Timeout config =? 0 then 30 * Second else Timeout config in
  {| httpTimeout := Timeout';
     maxDepth := MaxDepth';
     concurrency := Concurrency';
     userAgent := UserAgent';
     delay := Delay config;
     visited := ∅;
     queue := [];
     onDocument := false;
     running := false;
     wg := 0 |}.

(** [NewDefaultSpider] *)
Definition NewDefaultSpider : Spider :=
  NewSpider (mkSpiderConfig 3 5 "Mozilla/5.0 (compatible; GolwarcBot/1.0)"
               (1 * Second) (30 * Second)).

Definition SetMaxDepth (depth : Z) (s : Spider) : Spider :=
  mkSpider (httpTimeout s) depth (concurrency s) (visited s) (queue s)
    (userAgent s) (delay s) (onDocument s) (running s) (wg s).

Definition SetConcurrency (n : Z) (s : Spider) : Spider :=
  mkSpider (httpTimeout s) (maxDepth s) n (visited s) (queue s)
    (userAgent s) (delay s) (onDocument s) (running s) (wg s).

(** [AddStartURL] *)
Definition AddStartURL (u : string) (s : Spider) : Spider :=
  set_queue (queue s ++ [u]) s.

(** [OnDocument], called with a handler that is not [nil]. *)
Definition OnDocument (s : Spider) : Spider :=
  mkSpider (httpTimeout s) (maxDepth s) (concurrency s) (visited s) (queue s)
    (userAgent s) (delay s) true (running s) (wg s).

(** [Stop] *)
Definition Stop (s : Spider) : Spider := set_running false s.

(** [IsRunning] *)
Definition IsRunning (s : Spider) : bool := running s.

(** [ClearVisited] *)
Definition ClearVisited (s : Spider) : Spider := set_visited ∅ s.

(** [GetVisitedCount] *)
Definition GetVisitedCount (s : Spider) : Z := Z.of_nat (size (visited s)).

(** [s.visited[u]]: a missing key reads as [false]. *)
Definition isVisited (s : Spider) (u : string) : bool :=
  default false (visited s !! u).

(** The errors of [crawlURL], one per [return] of the source. *)
Inductive CrawlError : Type :=
| ErrNewRequest (e : url.Error)
| ErrDo (msg : string)
| ErrStatusCode (code : Z)             (* status code: %d *)
| ErrDocument (msg : string)
| ErrHandler (msg : string).

(** [http.NewRequest(method, urlStr, nil)] with a valid method: it fails
    when [url.Parse] does. *)
Definition NewRequest (method urlStr : string) : url.Error + Request :=
  match url.Parse urlStr with
  | inl e => inl e
  | inr _ => inr (mkRequest method urlStr "")
  end.

(** [req.Header.Set("User-Agent", ua)] *)
Definition SetUserAgent (ua : string) (req : Request) : Request :=
  mkRequest (Method req) (URL req) ua.

(** [crawlURL]: fetch and process one URL. *)
Definition crawlURL (s : Spider) (urlStr : string) : Eff (option CrawlError) :=
  match NewRequest "GET" urlStr with
  | inl e => Ret (Some (ErrNewRequest e))
  | inr req =>
      HttpDo (SetUserAgent (userAgent s) req) (fun r =>
        match r with
        | TransportError msg => Ret (Some (ErrDo msg))
        | Response StatusCode Body =>
            if negb (StatusCode =? StatusOK)
            then Ret (Some (ErrStatusCode StatusCode))
            else
              NewDocumentFromReader Body (fun d =>
                match d with
                | inl msg => Ret (Some (ErrDocument msg))
                | inr doc =>
                    if onDocument s
                    then CallHandler doc urlStr (fun e =>
                           match e with
                           | Some msg => Ret (Some (ErrHandler msg))
                           | None => Ret None
                           end)
                    else Ret None
                end)
        end)
  end.

(** [ResolveURL] *)
Definition ResolveURL (baseURL relativeURL : string) : url.Error + string :=
  match url.Parse baseURL with
  | inl e => inl e
  | inr base =>
      match url.Parse relativeURL with
      | inl e => inl e
      | inr relative => inr (url.URL_String (url.ResolveReference base relative))
      end
  end.

(** *** [Run] as a transition system

    [Run] drives the queue on the caller's goroutine and starts one
    goroutine per URL it dispatches; other goroutines (the handler, the
    caller) may call [AddStartURL], [Stop] and [ClearVisited] meanwhile.
    A state holds the spider, where [Run] stands, the semaphore channel
    and the goroutines started; an action is one step of one of them. *)

Inductive RunError : Type :=
| ErrAlreadyRunning.      (* spider is already running *)

(** Where the goroutine that called [Run] stands. *)
Inductive PC : Type :=
| PEntry                            (* Run called *)
| PLoop                             (* at  for len(s.queue) > 0 *)
| PLocked                           (* queueMu held, at  if len(s.queue) == 0 *)
| PCheck (currentURL : string)      (* popped; at  isVisited := s.visited[currentURL] *)
| PMark (currentURL : string)       (* not visited; at  s.visited[currentURL] = true *)
| PAcquire (currentURL : string)    (* at  sem <- struct{}{} *)
| PSpawn (currentURL : string)      (* at  s.wg.Add(1); go func(url) *)
| PWait                             (* loop left; at  s.wg.Wait() *)
| PReturned (err : option RunError) (* Run returned err *)
| PPanicked.                        (* make(chan, n) with n < 0 *)

(** Where a goroutine started by [Run] stands. *)
Inductive Stage : Type :=
| SCrawl (p : Eff (option CrawlError))  (* inside s.crawlURL(url), p left to run *)
| SSleep                                (* at  time.Sleep(s.delay) *)
| SRelease                              (* at the deferred  <-sem; s.wg.Done() *)
| SExited.

Record Worker : Type := mkWorker {
  w_url : string;
  w_stage : Stage
}.

(** What happened, oldest first. *)
Inductive RunEvent : Type :=
| EPop (u : string)                        (* u taken from the queue *)
| ESkip (u : string)                       (* u found visited: continue *)
| EMark (u : string)                       (* u entered into visited *)
| EGo (u : string)                         (* goroutine started for u *)
| EFetch (u : string) (req : Request)      (* httpClient.Do(req) called for u *)
| EParsed (u : string)                     (* the response body of u parsed *)
| EHandled (u : string)                    (* the handler called for u *)
| EReport (u : string) (e : CrawlError)    (* Error crawling u: e  printed *)
| EPush (u : string)                       (* AddStartURL(u) *)
| EStop                                    (* Stop() *)
| EClear.                                  (* ClearVisited() *)

Record State : Type := mkState {
  spider : Spider;
  pc : PC;
  sem_cap : Z;             (* cap(sem) *)
  sem_len : Z;             (* len(sem) *)
  workers : list Worker;
  log : list RunEvent
}.

(** The answer of the outside to the call a goroutine is at. *)
Inductive Answer : Type :=
| ANone
| ADns (r : net.DNSError + list net.IP)
| AHttp (r : HTTPResult)
| ADoc (r : string + Document)
| AHandler (r : option string).

Inductive Action : Type :=
| AMain                              (* a step of Run's own goroutine *)
| AWorker (i : nat) (a : Answer)     (* a step of the i-th goroutine started *)
| AAddStartURL (u : string)
| AStop
| AClearVisited.

(** The state in which [s.Run()] is called. *)
Definition start (s : Spider) : State :=
  mkState s PEntry 0 0 [] [].

Definition goto (p : PC) (ev : list RunEvent) (st : State) : State :=
  mkState (spider st) p (sem_cap st) (sem_len st) (workers st) (log st ++ ev).

Definition with_spider (s : Spider) (st : State) : State :=
  mkState s (pc st) (sem_cap st) (sem_len st) (workers st) (log st).

(** One step of [Run]; [None] when it is blocked or over. *)
Definition main_step (st : State) : option State :=
  let s := spider st in
  match pc st with
  | PEntry =>
      if running s then Some (goto (PReturned (Some ErrAlreadyRunning)) [] st)
      else if concurrency s <? 0
      then Some (goto PPanicked [] (with_spider (set_running false s) st))
      else Some (mkState (set_running true s) PLoop (concurrency s) 0
                   (workers st) (log st))
  | PLoop =>
      if 0 <? Z.of_nat (length (queue s)) then Some (goto PLocked [] st)
      else Some (goto PWait [] st)
  | PLocked =>
      match queue s with
      | [] => Some (goto PWait [] st)
      | currentURL :: rest =>
          Some (goto (PCheck currentURL) [EPop currentURL]
                  (with_spider (set_queue rest s) st))
      end
  | PCheck currentURL =>
      if isVisited s currentURL then Some (goto PLoop [ESkip currentURL] st)
      else Some (goto (PMark currentURL) [] st)
  | PMark currentURL =>
      Some (goto (PAcquire currentURL) [EMark currentURL]
              (with_spider (set_visited (<[currentURL := true]> (visited s)) s) st))
  | PAcquire currentURL =>
      if sem_len st <? sem_cap st
      then Some (mkState s (PSpawn currentURL) (sem_cap st) (sem_len st + 1)
                   (workers st) (log st))
      else None
  | PSpawn currentURL =>
      Some (mkState (set_wg (wg s + 1) s) PLoop (sem_cap st) (sem_len st)
              (workers st ++ [mkWorker currentURL (SCrawl (crawlURL s currentURL))])
              (log st ++ [EGo currentURL]))
  | PWait =>
      if wg s =? 0
      then Some (goto (PReturned None) [] (with_spider (set_running false s) st))
      else None
  | PReturned _ => None
  | PPanicked => None
  end.

Definition after_crawl (s : Spider) : Stage :=
  if delay s >? 0 then SSleep else SRelease.

(** One step of a goroutine started by [Run], given the answer [a] to the
    call it is at: the new stage, what is logged, and whether it let go
    of its semaphore slot and of the wait group. *)
Definition worker_step (s : Spider) (w : Worker) (a : Answer)
  : option (Stage * list RunEvent * bool) :=
  let u := w_url w in
  match w_stage w, a with
  | SCrawl (Ret None), ANone => Some (after_crawl s, [], false)
  | SCrawl (Ret (Some e)), ANone => Some (after_crawl s, [EReport u e], false)
  | SCrawl (LookupIP _ k), ADns r => Some (SCrawl (k r), [], false)
  | SCrawl (HttpDo req k), AHttp r => Some (SCrawl (k r), [EFetch u req], false)
  | SCrawl (NewDocumentFromReader _ k), ADoc r => Some (SCrawl (k r), [EParsed u], false)
  | SCrawl (CallHandler _ _ k), AHandler r => Some (SCrawl (k r), [EHandled u], false)
  | SSleep, ANone => Some (SRelease, [], false)
  | SRelease, ANone => Some (SExited, [], true)
  | _, _ => None
  end.

(** [l[i] = x], nothing out of range. *)
Definition set_nth {A} (i : nat) (x : A) (l : list A) : list A :=
  firstn i l ++ match skipn i l with
                | [] => []
                | _ :: rest => x :: rest
                end.

Definition step (a : Action) (st : State) : option State :=
  let s := spider st in
  match a with
  | AMain => main_step st
  | AWorker i ans =>
      match nth_error (workers st) i with
      | None => None
      | Some w =>
          match worker_step s w ans with
          | None => None
          | Some (stage, ev, released) =>
              let ws := set_nth i (mkWorker (w_url w) stage) (workers st) in
              if released then
                if 0 <? sem_len st
                then Some (mkState (set_wg (wg s - 1) s) (pc st) (sem_cap st)
                             (sem_len st - 1) ws (log st ++ ev))
                else None
              else Some (mkState s (pc st) (sem_cap st) (sem_len st) ws (log st ++ ev))
          end
      end
  | AAddStartURL u =>
      Some (mkState (AddStartURL u s) (pc st) (sem_cap st) (sem_len st)
              (workers st) (log st ++ [EPush u]))
  | AStop =>
      Some (mkState (Stop s) (pc st) (sem_cap st) (sem_len st)
              (workers st) (log st ++ [EStop]))
  | AClearVisited =>
      Some (mkState (ClearVisited s) (pc st) (sem_cap st) (sem_len st)
              (workers st) (log st ++ [EClear]))
  end.

(** A schedule run from a state; [None] when one of its actions is not
    possible where it comes. *)
Fixpoint exec (acts : list Action) (st : State) : option State :=
  match acts with
  | [] => Some st
  | a :: rest =>
      match step a st with
      | None => None
      | Some st' => exec rest st'
      end
  end.

End crawlers.

Import effects.

(** * Vocabulary of the properties, and the worlds of the examples *)

(** An address the validator blocks. *)
Definition dangerous (ip : net.IP) : Prop :=
  net.IsLoopback ip = true \/ net.IsPrivate ip = true
  \/ net.IsLinkLocalUnicast ip = true \/ net.IsMulticast ip = true.

(** A world that resolves every name to [ips] and answers every request
    with [status] and [body]; documents parse and the handler succeeds. *)
Definition world_of (ips : list net.IP) (status : Z) (body : string) : World :=
  mkWorld (fun _ => inr ips) (fun _ => Response status body)
    (fun b => inr (mkDocument b)) (fun _ _ => None).

(** A public address (93.184.216.34). *)
Definition public_ip : net.IP := [93; 184; 216; 34].

(** What [crawlURL] does with the answer to its request. *)
Definition after_response (s : crawlers.Spider) (urlStr : string) (r : HTTPResult)
  : Eff (option crawlers.CrawlError) :=
  match r with
  | TransportError msg => Ret (Some (crawlers.ErrDo msg))
  | Response StatusCode Body =>
      if negb (StatusCode =? crawlers.StatusOK)
      then Ret (Some (crawlers.ErrStatusCode StatusCode))
      else
        NewDocumentFromReader Body (fun d =>
          match d with
          | inl msg => Ret (Some (crawlers.ErrDocument msg))
          | inr doc =>
              if crawlers.onDocument s
              then CallHandler doc urlStr (fun e =>
                     match e with
                     | Some msg => Ret (Some (crawlers.ErrHandler msg))
                     | None => Ret None
                     end)
              else Ret None
          end)
  end.

(** How many elements of [l] satisfy [f]. *)
Definition count {A} (f : A -> bool) (l : list A) : nat := length (List.filter f l).

(** The events of the log that concern [u]. *)
Definition is_pop (u : string) (e : crawlers.RunEvent) : bool :=
  match e with crawlers.EPop v => String.eqb v u | _ => false end.

Definition is_skip (u : string) (e : crawlers.RunEvent) : bool :=
  match e with crawlers.ESkip v => String.eqb v u | _ => false end.

Definition is_mark (u : string) (e : crawlers.RunEvent) : bool :=
  match e with crawlers.EMark v => String.eqb v u | _ => false end.

Definition is_go (u : string) (e : crawlers.RunEvent) : bool :=
  match e with crawlers.EGo v => String.eqb v u | _ => false end.

Definition is_fetch (u : string) (e : crawlers.RunEvent) : bool :=
  match e with crawlers.EFetch v _ => String.eqb v u | _ => false end.

Definition is_any_pop (e : crawlers.RunEvent) : bool :=
  match e with crawlers.EPop _ => true | _ => false end.

(** [Run] has taken [u] from the queue and not yet decided about it. *)
Definition checking (u : string) (p : crawlers.PC) : nat :=
  match p with
  | crawlers.PCheck v | crawlers.PMark v => if String.eqb v u then 1 else 0
  | _ => 0
  end.

(** [Run] has marked [u] and not yet started its goroutine. *)
Definition in_hand (u : string) (p : crawlers.PC) : nat :=
  match p with
  | crawlers.PAcquire v | crawlers.PSpawn v => if String.eqb v u then 1 else 0
  | _ => 0
  end.

(** The goroutine is at the call of [httpClient.Do]. *)
Definition at_http (st : crawlers.Stage) : bool :=
  match st with
  | crawlers.SCrawl (HttpDo _ _) => true
  | _ => false
  end.

Definition about_to_fetch (u : string) (w : crawlers.Worker) : bool :=
  String.eqb (crawlers.w_url w) u && at_http (crawlers.w_stage w).

Definition live (w : crawlers.Worker) : bool :=
  match crawlers.w_stage w with
  | crawlers.SExited => false
  | _ => true
  end.

(** The calls of a tree are ranked by the order [crawlURL] makes them in. *)
Definition rank {A} (p : Eff A) : nat :=
  match p with
  | Ret _ => 0
  | CallHandler _ _ _ => 1
  | NewDocumentFromReader _ _ => 2
  | HttpDo _ _ => 3
  | LookupIP _ _ => 4
  end.

(** A tree whose calls come in falling rank: each kind at most once. *)
Inductive descending {A} : Eff A -> Prop :=
| desc_Ret (a : A) : descending (Ret a)
| desc_LookupIP h k :
    (forall r, (rank (k r) < 4)%nat) -> (forall r, descending (k r)) ->
    descending (LookupIP h k)
| desc_HttpDo req k :
    (forall r, (rank (k r) < 3)%nat) -> (forall r, descending (k r)) ->
    descending (HttpDo req k)
| desc_NewDocument body k :
    (forall r, (rank (k r) < 2)%nat) -> (forall r, descending (k r)) ->
    descending (NewDocumentFromReader body k)
| desc_CallHandler doc u k :
    (forall r, (rank (k r) < 1)%nat) -> (forall r, descending (k r)) ->
    descending (CallHandler doc u k).

(** A goroutine of [Run] is inside a tree that makes no DNS lookup and at
    most one request. *)
Definition stage_ok (st : crawlers.Stage) : Prop :=
  match st with
  | crawlers.SCrawl p => descending p /\ (rank p <= 3)%nat
  | _ => True
  end.

(** The steps a goroutine has left at most. *)
Definition stage_cost (st : crawlers.Stage) : nat :=
  match st with
  | crawlers.SCrawl p => 3 + rank p
  | crawlers.SSleep => 2
  | crawlers.SRelease => 1
  | crawlers.SExited => 0
  end.





Definition is_push (a : crawlers.Action) : bool :=
  match a with crawlers.AAddStartURL _ => true | _ => false end.

Definition is_clear (a : crawlers.Action) : bool :=
  match a with crawlers.AClearVisited => true | _ => false end.

Definition over (p : crawlers.PC) : bool :=
  match p with
  | crawlers.PReturned _ | crawlers.PPanicked => true
  | _ => false
  end.

(** What holds of [Run] as long as nobody calls [ClearVisited]. *)
Record session_inv (st : crawlers.State) : Prop := mk_session_inv {
  si_mark_visited : forall u,
    (1 <= count (is_mark u) (crawlers.log st))%nat ->
    crawlers.isVisited (crawlers.spider st) u = true;
  si_mark_pending : forall u,
    crawlers.pc st = crawlers.PMark u ->
    crawlers.isVisited (crawlers.spider st) u = false;
  si_mark_go : forall u,
    count (is_mark u) (crawlers.log st)
    = (count (is_go u) (crawlers.log st) + in_hand u (crawlers.pc st))%nat;
  si_fetch_go : forall u,
    (count (is_fetch u) (crawlers.log st)
     + count (about_to_fetch u) (crawlers.workers st)
     <= count (is_go u) (crawlers.log st))%nat;
  si_pops : forall u,
    count (is_pop u) (crawlers.log st)
    = (count (is_skip u) (crawlers.log st) + count (is_mark u) (crawlers.log st)
       + checking u (crawlers.pc st))%nat;
  si_stage : forall w,
    In w (crawlers.workers st) -> stage_ok (crawlers.w_stage w);
  si_worker_marked : forall w,
    In w (crawlers.workers st) ->
    (1 <= count (is_mark (crawlers.w_url w)) (crawlers.log st))%nat;
  si_fetch_after_mark : forall l1 u req l2,
    crawlers.log st = (l1 ++ crawlers.EFetch u req :: l2)%list ->
    In (crawlers.EMark u) l1;
  si_report_marked : forall u e,
    In (crawlers.EReport u e) (crawlers.log st) ->
    (1 <= count (is_mark u) (crawlers.log st))%nat;
  si_mark_once : forall u, (count (is_mark u) (crawlers.log st) <= 1)%nat
}.

Definition is_any_mark (e : crawlers.RunEvent) : bool :=
  match e with crawlers.EMark _ => true | _ => false end.

(** A visited map as the Spider builds it: only [true] is ever stored. *)
Definition all_true (m : gmap string bool) : Prop :=
  forall u b, m !! u = Some b -> b = true.

Definition spawning (p : crawlers.PC) : Z :=
  match p with crawlers.PSpawn _ => 1 | _ => 0 end.

Definition workers_ok (st : crawlers.State) : Prop :=
  forall w, In w (crawlers.workers st) -> stage_ok (crawlers.w_stage w).

(** What holds of a [Run] that got past its entry, on a spider [s] that was
    not running. *)
Record run_inv (s : crawlers.Spider) (st : crawlers.State) : Prop := mk_run_inv {
  ri_entered : crawlers.pc st <> crawlers.PEntry;
  ri_no_error : forall e, crawlers.pc st <> crawlers.PReturned (Some e);
  ri_no_panic : crawlers.pc st <> crawlers.PPanicked;
  ri_cap : crawlers.sem_cap st = crawlers.concurrency s;
  ri_sem :
    crawlers.sem_len st
    = Z.of_nat (count live (crawlers.workers st)) + spawning (crawlers.pc st);
  ri_wg :
    crawlers.wg (crawlers.spider st)
    = crawlers.wg s + Z.of_nat (count live (crawlers.workers st));
  ri_bound : crawlers.sem_len st <= crawlers.sem_cap st;
  ri_stage : workers_ok st;
  ri_done :
    crawlers.pc st = crawlers.PReturned None ->
    crawlers.running (crawlers.spider st) = false
    /\ (0 <= crawlers.wg s -> count live (crawlers.workers st) = 0%nat)
}.

(** * More of the two packages

    The other validators of package [libs], and the validator that package
    [crawlers] has of its own. *)

Module settings.

(** The errors of the configuration validators, one per [return]. *)
Inductive ConfigError : Type :=
| ErrUserAgentEmpty       (* user agent cannot be empty *)
| ErrMaxDepthRange        (* max depth must be between 1 and 10 *)
| ErrConcurrencyRange     (* concurrency must be between 1 and 100 *)
| ErrTimeoutLow           (* timeout must be at least 1 second *)
| ErrTimeoutHigh          (* timeout cannot exceed 300 seconds (5 minutes) *)
| ErrDatabaseHostEmpty    (* database host cannot be empty *)
| ErrDatabasePortRange    (* database port must be between 1 and 65535 *)
| ErrDatabaseNameEmpty    (* database name cannot be empty *)
| ErrCacheAddrEmpty       (* cache address cannot be empty *)
| ErrCacheDBRange.        (* cache database must be between 0 and 15 *)

(** [Validator.ValidateCrawlerConfig] *)
Definition ValidateCrawlerConfig (userAgent : string) (maxDepth concurrency : Z)
  : option ConfigError :=
  if String.eqb userAgent "" then Some ErrUserAgentEmpty
  else if (maxDepth <? 1) || (maxDepth >? 10) then Some ErrMaxDepthRange
  else if (concurrency <? 1) || (concurrency >? 100) then Some ErrConcurrencyRange
  else None.

(** [Validator.ValidateTimeout], in seconds. *)
Definition ValidateTimeout (timeout : Z) : option ConfigError :=
  if timeout <? 1 then Some ErrTimeoutLow
  else if timeout >? 300 then Some ErrTimeoutHigh
  else None.

(** [Validator.ValidateDatabaseConfig] *)
Definition ValidateDatabaseConfig (host : string) (port : Z) (database : string)
  : option ConfigError :=
  if String.eqb host "" then Some ErrDatabaseHostEmpty
  else if (port <? 1) || (port >? 65535) then Some ErrDatabasePortRange
  else if String.eqb database "" then Some ErrDatabaseNameEmpty
  else None.

(** [Validator.ValidateCacheConfig] *)
Definition ValidateCacheConfig (addr : string) (db : Z) : option ConfigError :=
  if String.eqb addr "" then Some ErrCacheAddrEmpty
  else if (db <? 0) || (db >? 15) then Some ErrCacheDBRange
  else None.

End settings.

(** The validator of package [crawlers]: no DNS, the host is judged by how
    it is written. *)
Module basic.

Inductive URLError : Type :=
| ErrEmptyURL                           (* URL cannot be empty *)
| ErrInvalidFormat (e : url.Error)      (* invalid URL format: %w *)
| ErrNoScheme                           (* URL must have a scheme (http or https) *)
| ErrSchemeNotAllowed (scheme : string) (* only http and https schemes are allowed, got: %s *)
| ErrNoHost                             (* URL must have a host *)
| ErrLocalhost                          (* localhost URLs are not allowed *)
| ErrPrivateIP.                         (* private IP addresses are not allowed *)

Definition privatePrefixes : list string :=
  ["10."; "192.168."; "172.16."; "172.17."; "172.18."; "172.19."; "172.20.";
   "172.21."; "172.22."; "172.23."; "172.24."; "172.25."; "172.26."; "172.27.";
   "172.28."; "172.29."; "172.30."; "172.31."].

(** [crawlers.ValidateURL] *)
Definition ValidateURL (rawURL : string) : option URLError :=
  if String.eqb rawURL "" then Some ErrEmptyURL
  else
    match url.Parse rawURL with
    | inl e => Some (ErrInvalidFormat e)
    | inr parsed =>
        if String.eqb (url.Scheme parsed) "" then Some ErrNoScheme
        else if negb (String.eqb (url.Scheme parsed) "http")
                && negb (String.eqb (url.Scheme parsed) "https")
        then Some (ErrSchemeNotAllowed (url.Scheme parsed))
        else if String.eqb (url.Host parsed) "" then Some ErrNoHost
        else
          let host := strings.ToLower (url.Hostname parsed) in
          if String.eqb host "localhost" || String.eqb host "127.0.0.1"
             || String.eqb host "::1"
          then Some ErrLocalhost
          else if existsb (fun p => strings.HasPrefix host p) privatePrefixes
          then Some ErrPrivateIP
          else None
    end.

End basic.

(** * Vocabulary of the further properties *)

(** The URLs taken from the queue, and those added by [AddStartURL], in the
    order of the log. *)
Definition popped (l : list crawlers.RunEvent) : list string :=
  flat_map (fun e => match e with crawlers.EPop u => [u] | _ => [] end) l.

Definition pushed (l : list crawlers.RunEvent) : list string :=
  flat_map (fun e => match e with crawlers.EPush u => [u] | _ => [] end) l.

Definition is_stop (a : crawlers.Action) : bool :=
  match a with crawlers.AStop => true | _ => false end.

Definition is_clear_event (e : crawlers.RunEvent) : bool :=
  match e with crawlers.EClear => true | _ => false end.

(** What holds of the log under every schedule, [ClearVisited] included:
    a URL is marked once for each goroutine started for it or about to be,
    requested at most once by each goroutine, and taken from the queue once
    for each time it was skipped or marked. *)
Definition flow_inv (st : crawlers.State) : Prop :=
  (forall u, count (is_mark u) (crawlers.log st)
             = (count (is_go u) (crawlers.log st) + in_hand u (crawlers.pc st))%nat)
  /\ (forall u, (count (is_fetch u) (crawlers.log st)
                 + count (about_to_fetch u) (crawlers.workers st)
                 <= count (is_go u) (crawlers.log st))%nat)
  /\ (forall u, count (is_pop u) (crawlers.log st)
                = (count (is_skip u) (crawlers.log st)
                   + count (is_mark u) (crawlers.log st)
                   + checking u (crawlers.pc st))%nat)
  /\ workers_ok st.

(** The request [crawlURL] makes for [u] on a spider with user agent [ua]. *)
Definition request_for (ua u : string) : Request := mkRequest "GET" u ua.


(** [http.NewRequest] accepts [u]. *)
Definition parses (u : string) : bool :=
  match url.Parse u with inr _ => true | inl _ => false end.

(** What holds of a call of [Run] on the spider [s] as long as nobody
    calls [ClearVisited]: each goroutine started for a URL that parses
    makes its request; a URL was skipped only when it was visited; and a
    URL is visited only when it was so before the call or has been marked
    in it. *)
Definition crawl_inv (s : crawlers.Spider) (st : crawlers.State) : Prop :=
  (forall u, (count (is_fetch u) (crawlers.log st)
              + count (about_to_fetch u) (crawlers.workers st))%nat
             = if parses u then count (is_go u) (crawlers.log st) else 0%nat)
  /\ (forall u, (1 <= count (is_skip u) (crawlers.log st))%nat ->
                crawlers.isVisited (crawlers.spider st) u = true)
  /\ (forall u, crawlers.isVisited (crawlers.spider st) u = true ->
                crawlers.isVisited s u = true
                \/ (1 <= count (is_mark u) (crawlers.log st))%nat)
  /\ workers_ok st.

(** What holds of a call of [Run] with a semaphore of no slot. *)
Definition blocked_inv (st : crawlers.State) : Prop :=
  crawlers.workers st = []
  /\ crawlers.sem_cap st = 0 /\ crawlers.sem_len st = 0
  /\ (forall u, In (crawlers.EMark u) (crawlers.log st) ->
        crawlers.pc st = crawlers.PAcquire u)
  /\ (forall u req, ~ In (crawlers.EFetch u req) (crawlers.log st))
  /\ match crawlers.pc st with
     | crawlers.PEntry | crawlers.PSpawn _ | crawlers.PPanicked
     | crawlers.PReturned (Some _) => False
     | _ => True
     end.

(** What holds after [Run] has panicked at [make]. *)
Definition panicked_inv (st : crawlers.State) : Prop :=
  crawlers.pc st = crawlers.PPanicked
  /\ crawlers.workers st = []
  /\ popped (crawlers.log st) = []
  /\ (forall u req, ~ In (crawlers.EFetch u req) (crawlers.log st))
  /\ crawlers.running (crawlers.spider st) = false.

(** The state [st] of a spider whose depth was set to [d]. *)
Definition with_depth (d : Z) (st : crawlers.State) : crawlers.State :=
  crawlers.with_spider (crawlers.SetMaxDepth d (crawlers.spider st)) st.

Definition is_on_document (e : Event) : bool :=
  match e with EvOnDocument _ _ => true | _ => false end.

(** The reason [validateIP] gives for the IPv4 address [a.b.c.d], read off
    its first two bytes. *)
Definition ipv4_reason (a b : Z) : option libs.IPError :=
  if a =? 127 then Some libs.ErrLoopback
  else if (a =? 10) || ((a =? 172) && (16 <=? b) && (b <=? 31))
          || ((a =? 192) && (b =? 168))
  then Some libs.ErrPrivate
  else if (a =? 169) && (b =? 254) then Some libs.ErrLinkLocal
  else if (224 <=? a) && (a <=? 239) then Some libs.ErrMulticast
  else None.

(** [Run] has left its loop. *)
Definition loop_left (p : crawlers.PC) : bool :=
  match p with
  | crawlers.PWait | crawlers.PReturned _ | crawlers.PPanicked => true
  | _ => false
  end.

(** * Properties *)

(** [with_parsed raw k]: run [k] on what [url.Parse raw] evaluates to. *)
Ltac with_parsed raw k :=
  lazymatch eval vm_compute in (url.Parse raw) with
  | inr ?u => k u
  end.

(** ** The validator *)

Section Validator.
Import libs.

Lemma validateScheme_http : validateScheme "http" = None.
Proof. reflexivity. Qed.

Lemma validateScheme_https : validateScheme "https" = None.
Proof. reflexivity. Qed.

Lemma validateScheme_other (scheme : string) :
  scheme <> "http" -> scheme <> "https" ->
  validateScheme scheme = Some (ErrDisallowedScheme scheme).
Proof.
  intros Hh Hs. unfold validateScheme, allowedSchemes.
  rewrite lookup_insert_ne by congruence.
  rewrite lookup_insert_ne by congruence.
  rewrite lookup_empty. reflexivity.
Qed.

Lemma validateScheme_allowed (scheme : string) :
  validateScheme scheme = None <-> scheme = "http" \/ scheme = "https".
Proof.
  split.
  - intros H.
    destruct (String.eqb_spec scheme "http") as [|Hh]; [now left|].
    destruct (String.eqb_spec scheme "https") as [|Hs]; [now right|].
    rewrite validateScheme_other in H by assumption. discriminate.
  - intros [-> | ->]; reflexivity.
Qed.

Lemma isLocalhost_spec (hostname : string) :
  isLocalhost hostname = true <-> In (strings.ToLower hostname) localhostNames.
Proof.
  unfold isLocalhost. rewrite existsb_exists. split.
  - intros [x [Hin Heq]]. apply String.eqb_eq in Heq. now subst.
  - intros Hin. exists (strings.ToLower hostname). split; [assumption|].
    apply String.eqb_refl.
Qed.

Lemma eqb_nonempty (s : string) : s <> "" -> String.eqb s "" = false.
Proof. intros H. now apply String.eqb_neq. Qed.

(** The validator up to the DNS lookup, in terms of what was parsed. *)
Lemma ValidateURL_parsed (rawURL : string) (u : url.URL) :
  rawURL <> "" -> url.Parse rawURL = inr u ->
  ValidateURL rawURL =
    match validateScheme (strings.ToLower (url.Scheme u)) with
    | Some e => Ret (Some e)
    | None => validateHostname (url.Hostname u)
    end.
Proof.
  intros Hne Hp. unfold ValidateURL. rewrite (eqb_nonempty _ Hne), Hp. reflexivity.
Qed.

Lemma validateIPs_None (ips : list net.IP) :
  validateIPs ips = None <-> Forall (fun ip => validateIP ip = None) ips.
Proof.
  induction ips as [|ip rest IH]; simpl.
  - split; [constructor | reflexivity].
  - destruct (validateIP ip) eqn:E.
    + split; [discriminate | intros H; inversion H; congruence].
    + rewrite IH. split; [intros H; now constructor | intros H; now inversion H].
Qed.

Lemma validateIPs_Some (ips : list net.IP) (e : ValidationError) :
  validateIPs ips = Some e ->
  exists ip why, e = ErrBlockedIP ip why /\ In ip ips /\ validateIP ip = Some why.
Proof.
  induction ips as [|ip rest IH]; simpl; [discriminate|].
  destruct (validateIP ip) as [why|] eqn:E.
  - intros [= <-]. exists ip, why. auto.
  - intros H. destruct (IH H) as (ip' & why & -> & Hin & Hv).
    exists ip', why. auto.
Qed.

(** C2. [ValidateURL] rejects, in this order and each with a reason of its
    own: the empty string; a string [url.Parse] refuses; a lower-cased
    scheme other than http and https (so file, javascript, ftp and data);
    an empty hostname; a hostname whose lower-case form is one of
    localhost, 127.0.0.1, ::1, 0.0.0.0 and ::. Each of these rejections is
    returned at once: the validator is the leaf [Ret], so no DNS lookup is
    made whatever the world answers. *)
Theorem ValidateURL_rejects_before_dns (rawURL : string) :
  (rawURL = "" -> ValidateURL rawURL = Ret (Some ErrEmptyURL))
  /\ (forall e, rawURL <> "" -> url.Parse rawURL = inl e ->
        ValidateURL rawURL = Ret (Some (ErrInvalidFormat e)))
  /\ (forall u, rawURL <> "" -> url.Parse rawURL = inr u ->
        let scheme := strings.ToLower (url.Scheme u) in
        scheme <> "http" -> scheme <> "https" ->
        ValidateURL rawURL = Ret (Some (ErrDisallowedScheme scheme)))
  /\ (forall u, rawURL <> "" -> url.Parse rawURL = inr u ->
        let scheme := strings.ToLower (url.Scheme u) in
        In scheme ["file"; "javascript"; "ftp"; "data"] ->
        ValidateURL rawURL = Ret (Some (ErrDisallowedScheme scheme)))
  /\ (forall u, rawURL <> "" -> url.Parse rawURL = inr u ->
        let scheme := strings.ToLower (url.Scheme u) in
        scheme = "http" \/ scheme = "https" ->
        url.Hostname u = "" ->
        ValidateURL rawURL = Ret (Some ErrEmptyHostname))
  /\ (forall u, rawURL <> "" -> url.Parse rawURL = inr u ->
        let scheme := strings.ToLower (url.Scheme u) in
        scheme = "http" \/ scheme = "https" ->
        url.Hostname u <> "" ->
        In (strings.ToLower (url.Hostname u))
           ["localhost"; "127.0.0.1"; "::1"; "0.0.0.0"; "::"] ->
        ValidateURL rawURL = Ret (Some ErrLocalhost))
  /\ (forall reason (w : World),
        ValidateURL rawURL = Ret (Some reason) ->
        calls w (ValidateURL rawURL) = [] /\ result w (ValidateURL rawURL) = Some reason)
  /\ (forall e scheme,
        List.NoDup [ErrEmptyURL; ErrInvalidFormat e; ErrDisallowedScheme scheme;
                    ErrEmptyHostname; ErrLocalhost]).
Proof.
  refine (conj _ (conj _ (conj _ (conj _ (conj _ (conj _ (conj _ _))))))).
  - intros ->. reflexivity.
  - intros e Hne Hp. unfold ValidateURL. now rewrite (eqb_nonempty _ Hne), Hp.
  - intros u Hne Hp scheme Hh Hs.
    rewrite (ValidateURL_parsed _ _ Hne Hp). fold scheme.
    now rewrite validateScheme_other.
  - intros u Hne Hp scheme Hin.
    rewrite (ValidateURL_parsed _ _ Hne Hp). fold scheme.
    simpl in Hin. destruct Hin as [<- | [<- | [<- | [<- | []]]]]; reflexivity.
  - intros u Hne Hp scheme Hs Hh. rewrite (ValidateURL_parsed _ _ Hne Hp).
    apply validateScheme_allowed in Hs. fold scheme. rewrite Hs.
    unfold validateHostname. now rewrite Hh.
  - intros u Hne Hp scheme Hs Hh Hin. rewrite (ValidateURL_parsed _ _ Hne Hp).
    apply validateScheme_allowed in Hs. fold scheme. rewrite Hs.
    unfold validateHostname. rewrite (eqb_nonempty _ Hh).
    apply isLocalhost_spec in Hin. now rewrite Hin.
  - intros reason w H. rewrite H. split; reflexivity.
  - intros e scheme.
    repeat (apply List.NoDup_cons; [simpl; intuition discriminate|]).
    apply List.NoDup_nil.
Qed.

(** The literal cases of C2, evaluated; they apply the theorem at
    file:///etc/passwd and at http://LOCALHOST/admin. *)
Lemma ValidateURL_rejects_before_dns_witness :
  ValidateURL "file:///etc/passwd" = Ret (Some (ErrDisallowedScheme "file"))
  /\ ValidateURL "http://LOCALHOST/admin" = Ret (Some ErrLocalhost)
  /\ ValidateURL "" = Ret (Some ErrEmptyURL)
  /\ ValidateURL "://invalid" = Ret (Some (ErrInvalidFormat url.ErrMissingScheme))
  /\ ValidateURL "http://" = Ret (Some ErrEmptyHostname).
Proof.
  split; [|split; [|split; [|split]]].
  - pose proof (ValidateURL_rejects_before_dns "file:///etc/passwd")
      as (_ & _ & H & _).
    with_parsed "file:///etc/passwd" ltac:(fun u =>
      apply (H u); [discriminate | vm_compute; reflexivity | discriminate | discriminate]).
  - pose proof (ValidateURL_rejects_before_dns "http://LOCALHOST/admin")
      as (_ & _ & _ & _ & _ & H & _).
    with_parsed "http://LOCALHOST/admin" ltac:(fun u =>
      apply (H u);
      [discriminate | vm_compute; reflexivity | now left | discriminate | simpl; now left]).
  - exact (proj1 (ValidateURL_rejects_before_dns "") eq_refl).
  - pose proof (ValidateURL_rejects_before_dns "://invalid") as (_ & H & _).
    apply H; [discriminate | reflexivity].
  - pose proof (ValidateURL_rejects_before_dns "http://") as (_ & _ & _ & _ & H & _).
    with_parsed "http://" ltac:(fun u =>
      apply (H u); [discriminate | vm_compute; reflexivity | now left | reflexivity]).
Defined.

Lemma validateIP_None (ip : net.IP) : validateIP ip = None <-> ~ dangerous ip.
Proof.
  unfold validateIP, dangerous.
  destruct (net.IsLoopback ip), (net.IsPrivate ip), (net.IsLinkLocalUnicast ip),
    (net.IsMulticast ip); split; try discriminate; try reflexivity; intuition discriminate.
Qed.

Lemma validateIP_Some (ip : net.IP) (why : IPError) :
  validateIP ip = Some why -> dangerous ip.
Proof.
  intros H. destruct (validateIP ip) eqn:E; [|discriminate].
  assert (Hn : validateIP ip <> None) by congruence.
  rewrite validateIP_None in Hn. unfold dangerous in *.
  destruct (net.IsLoopback ip), (net.IsPrivate ip), (net.IsLinkLocalUnicast ip),
    (net.IsMulticast ip); auto. exfalso. apply Hn. intuition discriminate.
Qed.

(** A property of bytes that holds of each of the 256 holds of all. *)
Lemma byte_cases (P : Z -> bool) :
  forallb P (map Z.of_nat (seq 0 256)) = true ->
  forall b, 0 <= b < 256 -> P b = true.
Proof.
  intros H b Hb. rewrite forallb_forall in H. apply H.
  apply in_map_iff. exists (Z.to_nat b). split; [lia|]. apply in_seq. lia.
Qed.

Lemma land_240_16 (b : Z) :
  0 <= b < 256 -> (Z.land b 240 =? 16) = (16 <=? b) && (b <=? 31).
Proof.
  intros Hb.
  apply (Bool.eqb_prop _ _).
  apply (byte_cases (fun b => Bool.eqb (Z.land b 240 =? 16) ((16 <=? b) && (b <=? 31))));
    [vm_compute; reflexivity | exact Hb].
Qed.

Lemma land_240_224 (b : Z) :
  0 <= b < 256 -> (Z.land b 240 =? 224) = (224 <=? b) && (b <=? 239).
Proof.
  intros Hb.
  apply (Bool.eqb_prop _ _).
  apply (byte_cases (fun b => Bool.eqb (Z.land b 240 =? 224) ((224 <=? b) && (b <=? 239))));
    [vm_compute; reflexivity | exact Hb].
Qed.

(** The IPv4 addresses the validator blocks are those of 127/8, of the
    RFC 1918 ranges 10/8, 172.16/12 and 192.168/16, of 169.254/16 and of
    224/4. *)
Lemma dangerous_ipv4 (a b c d : Z) :
  0 <= a < 256 -> 0 <= b < 256 ->
  dangerous [a; b; c; d]
  <-> a = 127
      \/ (a = 10 \/ (a = 172 /\ 16 <= b <= 31) \/ (a = 192 /\ b = 168))
      \/ (a = 169 /\ b = 254)
      \/ 224 <= a <= 239.
Proof.
  intros Ha Hb. unfold dangerous, net.IsLoopback, net.IsPrivate,
    net.IsLinkLocalUnicast, net.IsMulticast. simpl.
  unfold net.byte_at. simpl.
  rewrite (land_240_16 b Hb), (land_240_224 a Ha).
  rewrite !orb_true_iff, !andb_true_iff, !Z.eqb_eq, !Z.leb_le. tauto.
Qed.

(** C3. A URL that passed the checks made without the network is resolved:
    exactly one DNS lookup, of its hostname. A failed lookup rejects it; one
    resolved address that is loopback, private, link-local or multicast
    rejects it, with that address; and [nil] is returned exactly when the
    lookup succeeded and none of the addresses is of these kinds. The kinds
    are Go's [IsLoopback], [IsPrivate], [IsLinkLocalUnicast] and
    [IsMulticast]; [dangerous_ipv4] spells them out for IPv4. *)
Theorem ValidateURL_resolves_and_checks (rawURL : string) (u : url.URL) (w : World) :
  rawURL <> "" ->
  url.Parse rawURL = inr u ->
  strings.ToLower (url.Scheme u) = "http" \/ strings.ToLower (url.Scheme u) = "https" ->
  url.Hostname u <> "" ->
  ~ In (strings.ToLower (url.Hostname u))
       ["localhost"; "127.0.0.1"; "::1"; "0.0.0.0"; "::"] ->
  let verdict := result w (ValidateURL rawURL) in
  calls w (ValidateURL rawURL) = [EvLookupIP (url.Hostname u)]
  /\ (forall e, dns w (url.Hostname u) = inl e -> verdict = Some (ErrCannotResolve e))
  /\ (forall ips, dns w (url.Hostname u) = inr ips ->
        Exists dangerous ips ->
        exists ip why, verdict = Some (ErrBlockedIP ip why) /\ In ip ips /\ dangerous ip)
  /\ (verdict = None <->
      exists ips, dns w (url.Hostname u) = inr ips /\ Forall (fun ip => ~ dangerous ip) ips).
Proof.
  intros Hne Hp Hs Hh Hl verdict. subst verdict.
  rewrite (ValidateURL_parsed _ _ Hne Hp).
  apply validateScheme_allowed in Hs. rewrite Hs.
  unfold validateHostname. rewrite (eqb_nonempty _ Hh).
  destruct (isLocalhost (url.Hostname u)) eqn:El.
  { apply isLocalhost_spec in El. contradiction. }
  unfold calls, result. simpl.
  destruct (dns w (url.Hostname u)) as [e|ips] eqn:Ed; simpl.
  - repeat split.
    + intros e' [= <-]. reflexivity.
    + discriminate.
    + discriminate.
    + intros (ips & [=] & _).
  - repeat split.
    + discriminate.
    + intros ips' [= <-] Hex.
      destruct (validateIPs ips) as [err|] eqn:Ev.
      * destruct (validateIPs_Some _ _ Ev) as (ip & why & -> & Hin & Hv).
        exists ip, why. repeat split; auto. eapply validateIP_Some; eauto.
      * exfalso. apply validateIPs_None in Ev.
        apply Exists_exists in Hex as (ip & Hin & Hd).
        rewrite Forall_forall in Ev. specialize (Ev ip Hin).
        apply validateIP_None in Ev. contradiction.
    + intros Hv. exists ips. split; [reflexivity|].
      apply validateIPs_None in Hv. rewrite Forall_forall in *.
      intros ip Hin. apply validateIP_None. auto.
    + intros (ips' & [= <-] & Hall). apply validateIPs_None.
      rewrite Forall_forall in *. intros ip Hin. apply validateIP_None. auto.
Qed.

(** C3 at https://example.com/path, resolved to a public address: one
    lookup, and the URL is allowed; resolved to 10.0.0.1 as well, it is
    rejected. *)
Lemma ValidateURL_resolves_and_checks_witness :
  calls (world_of [public_ip] 200 "") (ValidateURL "https://example.com/path")
    = [EvLookupIP "example.com"]
  /\ result (world_of [public_ip] 200 "") (ValidateURL "https://example.com/path") = None
  /\ exists ip why,
       result (world_of [public_ip; [10; 0; 0; 1]] 200 "")
         (ValidateURL "https://example.com/path") = Some (ErrBlockedIP ip why).
Proof.
  assert (Hl : ~ In (strings.ToLower "example.com")
                    ["localhost"; "127.0.0.1"; "::1"; "0.0.0.0"; "::"]).
  { simpl. intuition discriminate. }
  with_parsed "https://example.com/path" ltac:(fun u =>
    pose proof (fun w => ValidateURL_resolves_and_checks "https://example.com/path" u w
                  ltac:(discriminate) eq_refl (or_intror eq_refl) ltac:(discriminate) Hl)
      as H).
  split; [|split].
  - exact (proj1 (H (world_of [public_ip] 200 ""))).
  - apply (H (world_of [public_ip] 200 "")). exists [public_ip]. split; [reflexivity|].
    constructor; [|constructor]. unfold dangerous. vm_compute. intuition discriminate.
  - destruct (H (world_of [public_ip; [10; 0; 0; 1]] 200 "")) as (_ & _ & Hb & _).
    destruct (Hb [public_ip; [10; 0; 0; 1]] eq_refl) as (ip & why & E & _).
    + apply Exists_cons_tl, Exists_cons_hd. right; left. reflexivity.
    + exists ip, why. exact E.
Defined.

End Validator.

(** ** The Spider's configuration *)

(** C8. [NewSpider] replaces exactly the zero fields of the configuration:
    depth 0 by 3, concurrency 0 by 5, an empty user agent by the GolwarcBot
    string, timeout 0 by 30 seconds; the delay is taken as it is, and every
    other value is kept. *)
Theorem NewSpider_defaults (config : crawlers.SpiderConfig) :
  let s := crawlers.NewSpider config in
  (crawlers.MaxDepth config = 0 -> crawlers.maxDepth s = 3)
  /\ (crawlers.MaxDepth config <> 0 -> crawlers.maxDepth s = crawlers.MaxDepth config)
  /\ (crawlers.Concurrency config = 0 -> crawlers.concurrency s = 5)
  /\ (crawlers.Concurrency config <> 0 ->
      crawlers.concurrency s = crawlers.Concurrency config)
  /\ (crawlers.UserAgent config = "" ->
      crawlers.userAgent s = "Mozilla/5.0 (compatible; GolwarcBot/1.0)")
  /\ (crawlers.UserAgent config <> "" -> crawlers.userAgent s = crawlers.UserAgent config)
  /\ (crawlers.Timeout config = 0 -> crawlers.httpTimeout s = 30 * 1000000000)
  /\ (crawlers.Timeout config <> 0 -> crawlers.httpTimeout s = crawlers.Timeout config)
  /\ crawlers.delay s = crawlers.Delay config.
Proof.
  destruct config as [d c ua dl t]. simpl.
  repeat match goal with |- _ /\ _ => split end.
  - intros ->. reflexivity.
  - intros H. now apply Z.eqb_neq in H as ->.
  - intros ->. reflexivity.
  - intros H. now apply Z.eqb_neq in H as ->.
  - intros ->. reflexivity.
  - intros H. now apply String.eqb_neq in H as ->.
  - intros ->. reflexivity.
  - intros H. now apply Z.eqb_neq in H as ->.
  - reflexivity.
Qed.

(** C8 on the zero configuration and on one with every field set. *)
Lemma NewSpider_defaults_witness :
  (let s := crawlers.NewSpider (crawlers.mkSpiderConfig 0 0 "" 0 0) in
   crawlers.maxDepth s = 3 /\ crawlers.concurrency s = 5
   /\ crawlers.userAgent s = "Mozilla/5.0 (compatible; GolwarcBot/1.0)"
   /\ crawlers.httpTimeout s = 30000000000 /\ crawlers.delay s = 0)
  /\ (let s := crawlers.NewSpider (crawlers.mkSpiderConfig 7 (-2) "TestSpider/1.0" 5 9) in
      crawlers.maxDepth s = 7 /\ crawlers.concurrency s = -2
      /\ crawlers.userAgent s = "TestSpider/1.0"
      /\ crawlers.httpTimeout s = 9 /\ crawlers.delay s = 5).
Proof.
  split.
  - destruct (NewSpider_defaults (crawlers.mkSpiderConfig 0 0 "" 0 0))
      as (H1 & _ & H2 & _ & H3 & _ & H4 & _ & H5).
    exact (conj (H1 eq_refl) (conj (H2 eq_refl) (conj (H3 eq_refl) (conj (H4 eq_refl) H5)))).
  - destruct (NewSpider_defaults (crawlers.mkSpiderConfig 7 (-2) "TestSpider/1.0" 5 9))
      as (_ & H1 & _ & H2 & _ & H3 & _ & H4 & H5).
    refine (conj (H1 _) (conj (H2 _) (conj (H3 _) (conj (H4 _) H5)))); discriminate.
Defined.

(** ** The resolver *)





(** The scheme of such a reference is lower-cased as well. *)
Lemma ResolveURL_absolute_lowers_scheme :
  crawlers.ResolveURL "https://example.com/" "HTTPS://other.com/page"
  = inr "https://other.com/page".
Proof. vm_compute. reflexivity. Qed.

(** ** Calls and results of a tree *)

Lemma calls_HttpDo {A} (w : World) (req : Request) (k : HTTPResult -> Eff A) :
  calls w (HttpDo req k) = EvHttpDo req :: calls w (k (http w req)).
Proof. unfold calls. simpl. now destruct (run w (k (http w req))). Qed.

Lemma result_HttpDo {A} (w : World) (req : Request) (k : HTTPResult -> Eff A) :
  result w (HttpDo req k) = result w (k (http w req)).
Proof. unfold result. simpl. now destruct (run w (k (http w req))). Qed.

(** ** [crawlURL] *)

Section CrawlURL.
Import crawlers.

(** The request [crawlURL] builds for [urlStr]. *)
Lemma NewRequest_parsed (urlStr : string) (u : url.URL) :
  url.Parse urlStr = inr u -> NewRequest "GET" urlStr = inr (mkRequest "GET" urlStr "").
Proof. intros H. unfold NewRequest. now rewrite H. Qed.

Lemma crawlURL_unparsed (s : Spider) (urlStr : string) (e : url.Error) :
  url.Parse urlStr = inl e -> crawlURL s urlStr = Ret (Some (ErrNewRequest e)).
Proof. intros H. unfold crawlURL, NewRequest. now rewrite H. Qed.

Lemma crawlURL_parsed (s : Spider) (urlStr : string) (u : url.URL) :
  url.Parse urlStr = inr u ->
  crawlURL s urlStr
  = HttpDo (mkRequest "GET" urlStr (userAgent s)) (after_response s urlStr).
Proof. intros H. unfold crawlURL, NewRequest. now rewrite H. Qed.

(** No request is made after the answer to the first. *)
Lemma after_response_no_http (s : Spider) (urlStr : string) (r : HTTPResult) (w : World) :
  List.filter is_http (calls w (after_response s urlStr r)) = [].
Proof.
  unfold calls. destruct r as [msg|code body]; simpl; [reflexivity|].
  destruct (code =? StatusOK); simpl; [|reflexivity].
  destruct (goquery w body) as [msg|doc]; simpl; [reflexivity|].
  destruct (onDocument s); simpl; [|reflexivity].
  destruct (handler w doc urlStr); reflexivity.
Qed.

Lemma after_response_no_lookup (s : Spider) (urlStr : string) (r : HTTPResult) (w : World) :
  List.filter is_lookup (calls w (after_response s urlStr r)) = [].
Proof.
  unfold calls. destruct r as [msg|code body]; simpl; [reflexivity|].
  destruct (code =? StatusOK); simpl; [|reflexivity].
  destruct (goquery w body) as [msg|doc]; simpl; [reflexivity|].
  destruct (onDocument s); simpl; [|reflexivity].
  destruct (handler w doc urlStr); reflexivity.
Qed.

Lemma after_response_status (s : Spider) (urlStr : string) (r : HTTPResult) (w : World)
    (code : Z) :
  result w (after_response s urlStr r) = Some (ErrStatusCode code)
  <-> exists body, r = Response code body /\ code <> 200.
Proof.
  unfold result. destruct r as [msg|c body]; simpl.
  - split; [discriminate | intros (b & [=] & _)].
  - destruct (Z.eqb_spec c StatusOK) as [->|Hc]; simpl.
    + split.
      * destruct (goquery w body) as [msg|doc]; simpl; [discriminate|].
        destruct (onDocument s); simpl; [|discriminate].
        destruct (handler w doc urlStr); discriminate.
      * intros (b & [= <- <-] & Hne). now contradiction Hne.
    + split.
      * intros [= <-]. exists body. split; [reflexivity | exact Hc].
      * intros (b & [= <- <-] & _). reflexivity.
Qed.

(** C6, as the code has it. [crawlURL] returns the error that carries the
    status code exactly when the response has a status other than 200; it
    makes one request at most, whatever comes back; and the body of a
    response with status 200 is parsed. *)
Theorem crawlURL_reports_status_not_200 (s : Spider) (urlStr : string) (w : World) :
  let req := mkRequest "GET" urlStr (userAgent s) in
  (forall code,
      result w (crawlURL s urlStr) = Some (ErrStatusCode code)
      <-> (exists u, url.Parse urlStr = inr u)
          /\ exists body, http w req = Response code body /\ code <> 200)
  /\ (length (List.filter is_http (calls w (crawlURL s urlStr))) <= 1)%nat
  /\ (forall u body,
        url.Parse urlStr = inr u -> http w req = Response 200 body ->
        In (EvNewDocument body) (calls w (crawlURL s urlStr))).
Proof.
  intros req. destruct (url.Parse urlStr) as [e|u] eqn:Hp.
  - rewrite (crawlURL_unparsed _ _ _ Hp). refine (conj _ (conj _ _)).
    + intros code. split; [discriminate | intros ((u & [=]) & _)].
    + simpl. lia.
    + discriminate.
  - rewrite (crawlURL_parsed _ _ _ Hp). fold req.
    rewrite calls_HttpDo, result_HttpDo.
    refine (conj _ (conj _ _)).
    + intros code. rewrite after_response_status. split.
      * intros H. split; [now exists u | exact H].
      * intros [_ H]. exact H.
    + simpl. rewrite after_response_no_http. simpl. lia.
    + intros u' body _ Hr. right. rewrite Hr. unfold calls. simpl.
      destruct (run w _). now left.
Qed.

(** Against C6 as it is worded: a 204 answer is in the 2xx range, and
    [crawlURL] reports it as a failure without parsing the body. *)
Lemma crawlURL_reports_204 :
  200 <= 204 < 300
  /\ result (world_of [public_ip] 204 "") (crawlURL NewDefaultSpider "http://example.com/")
     = Some (ErrStatusCode 204)
  /\ calls (world_of [public_ip] 204 "") (crawlURL NewDefaultSpider "http://example.com/")
     = [EvHttpDo (mkRequest "GET" "http://example.com/"
                    "Mozilla/5.0 (compatible; GolwarcBot/1.0)")].
Proof. split; [lia | split; vm_compute; reflexivity]. Qed.

End CrawlURL.

(** ** [Run]: schedules, counting, and the trees of the goroutines *)

Section Counting.
Context {A : Type} (f : A -> bool).

Lemma count_app (l l' : list A) : count f (l ++ l') = (count f l + count f l')%nat.
Proof. unfold count. now rewrite List.filter_app, List.length_app. Qed.

Lemma count_one (x : A) : count f [x] = if f x then 1%nat else 0%nat.
Proof. unfold count. simpl. now destruct (f x). Qed.

Lemma count_snoc (l : list A) (x : A) :
  count f (l ++ [x]) = (count f l + if f x then 1 else 0)%nat.
Proof. now rewrite count_app, count_one. Qed.

Lemma count_cons (x : A) (l : list A) :
  count f (x :: l) = ((if f x then 1 else 0) + count f l)%nat.
Proof. unfold count. simpl. now destruct (f x). Qed.

Lemma count_pos_In (l : list A) : (1 <= count f l)%nat -> exists x, In x l /\ f x = true.
Proof.
  induction l as [|x l IH]; [unfold count; simpl; lia|].
  rewrite count_cons. destruct (f x) eqn:E.
  - intros _. exists x. split; [now left | assumption].
  - intros H. destruct (IH H) as (y & Hin & Hy). exists y. split; [now right | assumption].
Qed.

Lemma In_count_pos (l : list A) (x : A) : In x l -> f x = true -> (1 <= count f l)%nat.
Proof.
  induction l as [|y l IH]; [contradiction|].
  rewrite count_cons. intros [-> | Hin] Hx.
  - rewrite Hx. lia.
  - specialize (IH Hin Hx). lia.
Qed.

(** Replacing the [i]-th element moves the count by what the old and the
    new element contribute. *)
Lemma count_set_nth (i : nat) (x w : A) (l : list A) :
  nth_error l i = Some w ->
  (count f (crawlers.set_nth i x l) + (if f w then 1 else 0)
   = count f l + (if f x then 1 else 0))%nat.
Proof.
  revert i. induction l as [|y l IH]; intros [|i] H; simpl in H; try discriminate.
  - injection H as ->. unfold crawlers.set_nth. simpl. rewrite !count_cons. lia.
  - specialize (IH i H). unfold crawlers.set_nth in *. simpl.
    rewrite !count_cons. lia.
Qed.

End Counting.

Lemma In_set_nth {A} (i : nat) (x y : A) (l : list A) :
  In y (crawlers.set_nth i x l) -> y = x \/ In y l.
Proof.
  revert i. induction l as [|z l IH]; intros [|i]; unfold crawlers.set_nth; simpl.
  - intros [].
  - intros [].
  - intros [<- | H]; auto.
  - intros [<- | H]; auto. destruct (IH i H); auto.
Qed.



Section Schedules.
Import crawlers.

Lemma exec_app (acts acts' : list Action) (st : State) :
  exec (acts ++ acts') st
  = match exec acts st with
    | Some st' => exec acts' st'
    | None => None
    end.
Proof.
  revert st. induction acts as [|a acts IH]; intros st; simpl; [reflexivity|].
  destruct (step a st); [apply IH | reflexivity].
Qed.

(** A property that holds where a schedule starts and that every step
    allowed by [ok] keeps holds where the schedule ends. *)
Lemma exec_invariant (ok : Action -> bool) (P : State -> Prop) :
  (forall a st st', ok a = true -> P st -> step a st = Some st' -> P st') ->
  forall acts st st',
    forallb ok acts = true -> P st -> exec acts st = Some st' -> P st'.
Proof.
  intros Hstep acts. induction acts as [|a acts IH]; intros st st' Hok HP He; simpl in *.
  - now injection He as <-.
  - apply andb_prop in Hok as [Ha Hacts].
    destruct (step a st) as [st1|] eqn:E; [|discriminate].
    apply (IH st1 st' Hacts); [|exact He].
    exact (Hstep a st st1 Ha HP E).
Qed.

Lemma no_clear_forallb (acts : list Action) :
  ~ In AClearVisited acts -> forallb (fun a => negb (is_clear a)) acts = true.
Proof.
  intros H. apply forallb_forall. intros a Hin.
  destruct a; try reflexivity. contradiction.
Qed.

Lemma forallb_true {A} (l : list A) : forallb (fun _ => true) l = true.
Proof. now induction l. Qed.

(** The tree of [crawlURL] makes no DNS lookup and at most one request. *)
Lemma after_response_descending (s : Spider) (urlStr : string) (r : HTTPResult) :
  descending (after_response s urlStr r) /\ (rank (after_response s urlStr r) < 3)%nat.
Proof.
  destruct r as [msg|code body]; simpl.
  - split; [constructor | simpl; lia].
  - destruct (code =? StatusOK); simpl; [|split; [constructor | simpl; lia]].
    split; [|lia]. constructor.
    + intros [msg|doc]; simpl; [lia|]. destruct (onDocument s); simpl; lia.
    + intros [msg|doc]; [constructor|]. destruct (onDocument s); [|constructor].
      constructor.
      * intros [msg|]; simpl; lia.
      * intros [msg|]; constructor.
Qed.

Lemma crawlURL_stage_ok (s : Spider) (urlStr : string) :
  stage_ok (SCrawl (crawlURL s urlStr)).
Proof.
  simpl. destruct (url.Parse urlStr) as [e|u] eqn:Hp.
  - rewrite (crawlURL_unparsed _ _ _ Hp). split; [constructor | simpl; lia].
  - rewrite (crawlURL_parsed _ _ _ Hp). split; [|simpl; lia].
    constructor; intros r; apply after_response_descending.
Qed.

End Schedules.

Section RunSteps.
Import crawlers.

(** What one step of a goroutine does, whatever the step is. *)
Lemma worker_step_summary (s : Spider) (w : Worker) (a : Answer)
    (stage : Stage) (ev : list RunEvent) (released : bool) :
  worker_step s w a = Some (stage, ev, released) ->
  stage_ok (w_stage w) ->
  stage_ok stage
  /\ at_http stage = false
  /\ (stage_cost stage < stage_cost (w_stage w))%nat
  /\ live w = true
  /\ (released = negb (live (mkWorker (w_url w) stage)))
  /\ (ev = [] \/ (exists req, ev = [EFetch (w_url w) req] /\ at_http (w_stage w) = true)
      \/ (at_http (w_stage w) = false
          /\ (ev = [EParsed (w_url w)] \/ ev = [EHandled (w_url w)]
              \/ exists e, ev = [EReport (w_url w) e])))
  /\ (ev = [] -> at_http (w_stage w) = false).
Proof.
  unfold worker_step. destruct w as [u st]. simpl.
  destruct st as [p| | |]; [|destruct a; try discriminate..].
  - destruct p as [[e|]|h k|req k|body k|doc v k]; destruct a; try discriminate;
      intros [= <- <- <-] [Hd Hr]; simpl in *.
    all: try (inversion Hd; subst;
              repeat match goal with
                     | H : forall r, (rank (?k r) < _)%nat |- context [?k ?x] =>
                         pose proof (H x); clear H
                     | H : forall r, descending (?k r) |- context [?k ?x] =>
                         pose proof (H x); clear H
                     end).
    all: repeat split; eauto 6; try lia; try discriminate.
    all: try (unfold after_crawl; destruct (delay s >? 0); simpl; auto; lia).
    all: try (destruct (k _); simpl in *; try reflexivity; lia).
    all: eauto 8.
  - intros [= <- <- <-] _. repeat split; simpl; auto; lia.
  - intros [= <- <- <-] _. repeat split; simpl; auto; lia.
Qed.
End RunSteps.

Section Session.
Import crawlers.

Lemma snoc_split {A} (l l1 l2 : list A) (e x : A) :
  (l ++ [e])%list = (l1 ++ x :: l2)%list ->
  (l2 = [] /\ e = x /\ l1 = l)
  \/ exists l2', l2 = (l2' ++ [e])%list /\ l = (l1 ++ x :: l2')%list.
Proof.
  destruct l2 as [|y l2] using rev_ind.
  - intros H. apply app_inj_tail in H as [-> ->]. now left.
  - intros H. rewrite app_comm_cons, app_assoc in H.
    apply app_inj_tail in H as [-> ->]. right. now exists l2.
Qed.

Lemma mark_count_In (u : string) (l : list RunEvent) :
  (1 <= count (is_mark u) l)%nat <-> In (EMark u) l.
Proof.
  split.
  - intros H. apply count_pos_In in H as (e & Hin & He).
    destruct e; try discriminate. simpl in He. apply String.eqb_eq in He. now subst.
  - intros H. eapply In_count_pos; [exact H|]. simpl. apply String.eqb_refl.
Qed.

Lemma isVisited_insert (s : Spider) (v u : string) :
  isVisited (set_visited (<[v := true]> (visited s)) s) u
  = (String.eqb v u || isVisited s u)%bool.
Proof.
  unfold isVisited. simpl. destruct (String.eqb_spec v u) as [->|Hne].
  - now rewrite lookup_insert_eq.
  - now rewrite lookup_insert_ne.
Qed.

Lemma about_to_fetch_mk (u v : string) (st : Stage) :
  about_to_fetch u (mkWorker v st) = (String.eqb v u && at_http st)%bool.
Proof. reflexivity. Qed.

Ltac counts :=
  rewrite ?app_nil_r in *; rewrite ?count_snoc in *;
  rewrite ?isVisited_insert in *; unfold isVisited in *; simpl in *.

Ltac eqb_cases :=
  repeat match goal with
         | |- context [String.eqb ?a ?b] => destruct (String.eqb_spec a b); subst
         | H : context [String.eqb ?a ?b] |- _ => destruct (String.eqb_spec a b); subst
         end; simpl in *.

Ltac split_log :=
  repeat match goal with
         | H : In _ (_ ++ [_]) |- _ =>
             apply in_app_or in H as [H | [H | []]]; [| try discriminate H]
         | H : (_ ++ [_])%list = (_ ++ _ :: _)%list |- _ =>
             apply snoc_split in H as [(-> & H & ->) | (? & -> & ->)];
             [try discriminate H |]
         end.

Ltac close_main H1 H2 H3 H4 H5 H6 H7 H8 H9 H10 :=
  intros; counts; split_log;
  try match goal with
      | u : string |- _ =>
          pose proof (H1 u); pose proof (H3 u); pose proof (H4 u); pose proof (H5 u);
          pose proof (H10 u)
      end;
  try match goal with
      | Hin : In ?w _ |- _ => pose proof (H6 w Hin); pose proof (H7 w Hin)
      end;
  try match goal with
      | Hin : In (EReport ?u ?e) _ |- _ => pose proof (H9 u e Hin)
      end;
  eqb_cases; counts;
  first [ assumption | discriminate | congruence | lia
        | (eapply H8; reflexivity) | (apply H1; lia) | (apply H2; congruence)
        | eauto ].

Lemma session_inv_main (st st' : State) :
  session_inv st -> main_step st = Some st' -> session_inv st'.
Proof.
  intros [H1 H2 H3 H4 H5 H6 H7 H8 H9 H10]. destruct st as [sp p cap len ws lg].
  unfold main_step. simpl in *.
  destruct p.
  - (* PEntry *)
    destruct (running sp); [|destruct (concurrency sp <? 0)]; intros [= <-];
      constructor; simpl; close_main H1 H2 H3 H4 H5 H6 H7 H8 H9 H10.
  - destruct (0 <? Z.of_nat (length (queue sp))); intros [= <-];
      constructor; simpl; close_main H1 H2 H3 H4 H5 H6 H7 H8 H9 H10.
  - destruct (queue sp); intros [= <-];
      constructor; simpl; close_main H1 H2 H3 H4 H5 H6 H7 H8 H9 H10.
  - destruct (isVisited sp currentURL) eqn:Ev; intros [= <-];
      constructor; simpl; close_main H1 H2 H3 H4 H5 H6 H7 H8 H9 H10.
  - assert (Hzero : count (is_mark currentURL) lg = 0%nat).
    { destruct (count (is_mark currentURL) lg) eqn:E; [reflexivity|].
      assert (Hv : isVisited sp currentURL = true) by (apply H1; lia).
      rewrite (H2 _ eq_refl) in Hv. discriminate. }
    intros [= <-];
      constructor; simpl; close_main H1 H2 H3 H4 H5 H6 H7 H8 H9 H10.
  - destruct (len <? cap); [|discriminate]. intros [= <-];
      constructor; simpl; close_main H1 H2 H3 H4 H5 H6 H7 H8 H9 H10.
  - intros [= <-];
      constructor; simpl; close_main H1 H2 H3 H4 H5 H6 H7 H8 H9 H10.
    all: try apply crawlURL_stage_ok.
    all: rewrite about_to_fetch_mk; eqb_cases; try congruence;
      repeat match goal with
             | |- context [if ?b then 1%nat else 0%nat] => destruct b
             end; lia.
  - destruct (wg sp =? 0); [|discriminate]. intros [= <-];
      constructor; simpl; close_main H1 H2 H3 H4 H5 H6 H7 H8 H9 H10.
  - discriminate.
  - discriminate.
Qed.

Lemma session_inv_worker (st st' : State) (i : nat) (ans : Answer) :
  session_inv st -> step (AWorker i ans) st = Some st' -> session_inv st'.
Proof.
  intros [H1 H2 H3 H4 H5 H6 H7 H8 H9 H10] Hs. destruct st as [sp p cap len ws lg].
  unfold step in Hs. simpl in *.
  destruct (nth_error ws i) as [w|] eqn:Hnth; [|discriminate].
  destruct (worker_step sp w ans) as [[[stage ev] released]|] eqn:Hw; [|discriminate].
  assert (Hin : In w ws) by (eapply nth_error_In; eauto).
  destruct (worker_step_summary _ _ _ _ _ _ Hw (H6 w Hin))
    as (Hok & Hhttp & _ & _ & _ & Hev & Hnil).
  pose proof (H7 w Hin) as Hmarked.
  assert (Hnew : forall u, about_to_fetch u (mkWorker (w_url w) stage) = false).
  { intros u. rewrite about_to_fetch_mk, Hhttp. apply andb_false_r. }
  assert (Hst' : exists sp' len',
            st' = mkState sp' p cap len'
                    (set_nth i (mkWorker (w_url w) stage) ws) (lg ++ ev)
            /\ visited sp' = visited sp).
  { destruct released; [destruct (0 <? len); [|discriminate]|];
      injection Hs as <-; do 2 eexists; split; reflexivity. }
  clear Hs. destruct Hst' as (sp' & len' & -> & Hvis).
  assert (Hcount : forall u,
             (count (about_to_fetch u) (set_nth i (mkWorker (w_url w) stage) ws)
              + (if about_to_fetch u w then 1 else 0)
              = count (about_to_fetch u) ws)%nat).
  { intros u. rewrite (count_set_nth _ _ _ _ _ Hnth), Hnew. lia. }
  assert (Hvisited : forall u, isVisited sp' u = isVisited sp u).
  { intros u. unfold isVisited. now rewrite Hvis. }
  assert (Hf : forall u, about_to_fetch u w
                      = (String.eqb (w_url w) u && at_http (w_stage w))%bool)
    by reflexivity.
  assert (Hmark_in : In (EMark (w_url w)) lg) by now apply mark_count_In.
  destruct Hev as [-> | [(req & -> & Hat) | (Hat & [-> | [-> | (e & ->)]])]];
    [pose proof (Hnil eq_refl) as Hat|..];
    constructor; simpl; intros;
    try match goal with
        | u : string |- _ =>
            pose proof (Hcount u) as Hc; rewrite Hf, Hat in Hc;
            rewrite ?andb_true_r, ?andb_false_r in Hc;
            pose proof (Hvisited u)
        end;
    try match goal with
        | Hin' : In _ (set_nth _ _ _) |- _ =>
            apply In_set_nth in Hin' as [-> | Hin']; simpl
        end.
  all: rewrite ?Hvisited.
  all: try solve [close_main H1 H2 H3 H4 H5 H6 H7 H8 H9 H10].
  all: try (apply H1; counts; lia).
  match goal with
  | H : In _ (_ ++ [_]) |- _ => apply in_app_or in H as [H | [[= <- <-] | []]]
  end; counts; [pose proof (H9 _ _ H) |]; lia.
Qed.

(** Every step but [ClearVisited] keeps the session invariant. *)
Lemma session_inv_step (a : Action) (st st' : State) :
  negb (is_clear a) = true -> session_inv st -> step a st = Some st' -> session_inv st'.
Proof.
  intros Ha Hinv Hs. destruct a; try discriminate.
  - now apply (session_inv_main st).
  - now apply (session_inv_worker st st' i a).
  - destruct Hinv as [H1 H2 H3 H4 H5 H6 H7 H8 H9 H10]. destruct st as [sp p cap len ws lg].
    injection Hs as <-. constructor; simpl in *; close_main H1 H2 H3 H4 H5 H6 H7 H8 H9 H10.
  - destruct Hinv as [H1 H2 H3 H4 H5 H6 H7 H8 H9 H10]. destruct st as [sp p cap len ws lg].
    injection Hs as <-. constructor; simpl in *; close_main H1 H2 H3 H4 H5 H6 H7 H8 H9 H10.
Qed.

Lemma session_inv_start (s : Spider) : session_inv (start s).
Proof.
  constructor; simpl; intros; try contradiction; try discriminate;
    try reflexivity; try (unfold count in *; simpl in *; lia).
  destruct l1; discriminate.
Qed.

Lemma session_inv_exec (s : Spider) (acts : list Action) (st : State) :
  ~ In AClearVisited acts -> exec acts (start s) = Some st -> session_inv st.
Proof.
  intros Hc He.
  exact (exec_invariant _ session_inv session_inv_step acts (start s) st
           (no_clear_forallb acts Hc) (session_inv_start s) He).
Qed.
End Session.

Section VisitedCount.
Import crawlers.

(** The visited map changes in one step of [Run] only, the marking, unless
    it is cleared. *)
Lemma step_visited (a : Action) (st st' : State) :
  negb (is_clear a) = true -> step a st = Some st' ->
  (visited (spider st') = visited (spider st)
   /\ count is_any_mark (log st') = count is_any_mark (log st))
  \/ exists u, pc st = PMark u
               /\ visited (spider st') = <[u := true]> (visited (spider st))
               /\ log st' = (log st ++ [EMark u])%list.
Proof.
  intros Ha Hs. destruct st as [sp p cap len ws lg]. destruct a; try discriminate.
  - unfold step, main_step in Hs. simpl in Hs.
    destruct p; simpl;
      repeat match type of Hs with
             | context [if ?b then _ else _] => destruct b
             | context [match ?q with [] => _ | _ :: _ => _ end] => destruct q
             end;
      try discriminate; injection Hs as <-; simpl;
      rewrite ?app_nil_r, ?count_snoc; simpl; rewrite ?Nat.add_0_r; eauto.
  - unfold step in Hs. simpl in Hs.
    destruct (nth_error ws i) as [w|]; [|discriminate].
    destruct (worker_step sp w a) as [[[stage ev] released]|] eqn:Hw; [|discriminate].
    assert (Hev : count is_any_mark ev = 0%nat).
    { unfold worker_step in Hw.
      destruct (w_stage w) as [q| | |]; [destruct q as [[e|]| | | |]|..];
        destruct a; try discriminate; injection Hw as <- <- <-; reflexivity. }
    left. destruct released; [destruct (0 <? len); [|discriminate]|];
      injection Hs as <-; simpl; rewrite count_app, Hev; split; (reflexivity || lia).
  - injection Hs as <-. left. simpl. rewrite count_snoc. simpl. split; [reflexivity | lia].
  - injection Hs as <-. left. simpl. rewrite count_snoc. simpl. split; [reflexivity | lia].
Qed.

Lemma visited_count_exec (s : Spider) (acts : list Action) (st : State) :
  ~ In AClearVisited acts -> all_true (visited s) ->
  exec acts (start s) = Some st ->
  all_true (visited (spider st))
  /\ size (visited (spider st))
     = (size (visited s) + count is_any_mark (log st))%nat.
Proof.
  intros Hc Ht He.
  pose (P := fun st : State =>
               session_inv st /\ all_true (visited (spider st))
               /\ size (visited (spider st))
                  = (size (visited s) + count is_any_mark (log st))%nat).
  assert (HP : P st).
  { refine (exec_invariant (fun a => negb (is_clear a)) P _ acts (start s) st
              (no_clear_forallb acts Hc) _ He).
    - intros a st1 st2 Ha (Hinv & Hall & Hsize) Hs.
      split; [exact (session_inv_step a st1 st2 Ha Hinv Hs)|].
      destruct (step_visited a st1 st2 Ha Hs) as [[Hv Hl] | (u & Hpc & Hv & Hl)].
      + rewrite Hv, Hl. auto.
      + pose proof (si_mark_pending st1 Hinv u Hpc) as Hnot.
        assert (Hnone : visited (spider st1) !! u = None).
        { unfold isVisited in Hnot. destruct (visited (spider st1) !! u) as [b|] eqn:E;
            [|reflexivity]. rewrite (Hall u b E) in Hnot. discriminate. }
        rewrite Hv, Hl. split.
        * intros v b. destruct (String.eqb_spec u v) as [->|Hne].
          -- rewrite lookup_insert_eq. congruence.
          -- rewrite lookup_insert_ne by assumption. apply Hall.
        * rewrite map_size_insert_None by assumption.
          rewrite count_snoc. simpl. lia.
    - split; [apply session_inv_start|]. split; [exact Ht|].
      simpl. unfold count. simpl. lia. }
  exact (proj2 HP).
Qed.

(** C4. In one call of [Run], with the visited map never cleared, every
    URL is claimed at most once and fetched at most once: its request is
    made at most once, by the one goroutine started for it; once claimed
    it reads as visited; and every time it is taken from the queue it is
    either the one time it is claimed, or skipped, or still being looked
    at. This holds under every schedule and every answer of the network. *)
Theorem Run_fetches_each_URL_at_most_once
    (s : Spider) (acts : list Action) (st : State) (u : string) :
  ~ In AClearVisited acts ->
  exec acts (start s) = Some st ->
  (count (is_fetch u) (log st) <= 1)%nat
  /\ (count (is_fetch u) (log st) <= count (is_go u) (log st))%nat
  /\ (count (is_go u) (log st) <= count (is_mark u) (log st))%nat
  /\ (count (is_mark u) (log st) <= 1)%nat
  /\ ((1 <= count (is_mark u) (log st))%nat -> isVisited (spider st) u = true)
  /\ count (is_pop u) (log st)
     = (count (is_skip u) (log st) + count (is_mark u) (log st)
        + checking u (pc st))%nat.
Proof.
  intros Hc He. pose proof (session_inv_exec s acts st Hc He) as Hinv.
  pose proof (si_mark_go st Hinv u). pose proof (si_fetch_go st Hinv u).
  pose proof (si_mark_once st Hinv u).
  repeat split; try lia.
  - apply (si_mark_visited st Hinv).
  - apply (si_pops st Hinv).
Qed.

(** C4 on a queue that holds http://a/ twice: one request, one skip. *)
Lemma Run_fetches_each_URL_at_most_once_witness :
  let s := AddStartURL "http://a/" (AddStartURL "http://a/" NewDefaultSpider) in
  let acts := (repeat AMain 11 ++ [AWorker 0 (AHttp (Response 200 ""))])%list in
  match exec acts (start s) with
  | Some st =>
      (count (is_fetch "http://a/") (log st) <= 1)%nat
      /\ count (is_fetch "http://a/") (log st) = 1%nat
      /\ count (is_skip "http://a/") (log st) = 1%nat
      /\ count (is_pop "http://a/") (log st) = 2%nat
  | None => False
  end.
Proof.
  intros s acts. destruct (exec acts (start s)) as [st|] eqn:He.
  - split.
    + refine (proj1 (Run_fetches_each_URL_at_most_once s acts st "http://a/" _ He)).
      unfold acts. rewrite in_app_iff. intros [H | [H | []]]; [|discriminate].
      apply repeat_spec in H. discriminate.
    + vm_compute in He. injection He as <-. vm_compute. auto.
  - vm_compute in He. discriminate.
Defined.

(** C10. With the visited map never cleared: a request for a URL comes
    after the URL was entered into the visited map; the URL of every
    goroutine started is visited, whatever the goroutine does; and a URL
    whose crawl was reported as failed is visited, is one of the URLs
    [GetVisitedCount] counts, and had one goroutine at most, so it is not
    tried again. From a visited map that stores [true] only, the count is
    the number it started with plus the number of URLs claimed. *)
Theorem Run_marks_before_fetching (s : Spider) (acts : list Action) (st : State) :
  ~ In AClearVisited acts ->
  exec acts (start s) = Some st ->
  (forall l1 u req l2,
      log st = (l1 ++ EFetch u req :: l2)%list -> In (EMark u) l1)
  /\ (forall w, In w (workers st) -> isVisited (spider st) (w_url w) = true)
  /\ (forall u e,
        In (EReport u e) (log st) ->
        isVisited (spider st) u = true
        /\ GetVisitedCount (spider st)
           = 1 + Z.of_nat (size (delete u (visited (spider st))))
        /\ (count (is_go u) (log st) <= 1)%nat)
  /\ (all_true (visited s) ->
      GetVisitedCount (spider st)
      = GetVisitedCount s + Z.of_nat (count is_any_mark (log st))).
Proof.
  intros Hc He. pose proof (session_inv_exec s acts st Hc He) as Hinv.
  refine (conj _ (conj _ (conj _ _))).
  - apply (si_fetch_after_mark st Hinv).
  - intros w Hin. apply (si_mark_visited st Hinv), (si_worker_marked st Hinv w Hin).
  - intros u e Hin.
    pose proof (si_mark_visited st Hinv u (si_report_marked st Hinv u e Hin)) as Hv.
    split; [exact Hv|]. split.
    + unfold isVisited in Hv. unfold GetVisitedCount.
      destruct (visited (spider st) !! u) as [b|] eqn:E; [|discriminate].
      assert (Hne : size (visited (spider st)) <> 0%nat).
      { apply map_size_ne_0_lookup. exists u. eauto. }
      rewrite map_size_delete, E. simpl. lia.
    + pose proof (si_mark_go st Hinv u). pose proof (si_mark_once st Hinv u). lia.
  - intros Ht. unfold GetVisitedCount.
    destruct (visited_count_exec s acts st Hc Ht He) as [_ ->]. lia.
Qed.

(** C10 on a URL that answers 500: reported, and counted all the same. *)
Lemma Run_marks_before_fetching_witness :
  let s := AddStartURL "http://a/" NewDefaultSpider in
  let acts := (repeat AMain 7
               ++ [AWorker 0 (AHttp (Response 500 "")); AWorker 0 ANone])%list in
  match exec acts (start s) with
  | Some st =>
      GetVisitedCount (spider st)
      = GetVisitedCount s + Z.of_nat (count is_any_mark (log st))
      /\ GetVisitedCount (spider st) = 1
      /\ log st
         = [EPop "http://a/"; EMark "http://a/"; EGo "http://a/";
            EFetch "http://a/"
              (mkRequest "GET" "http://a/" "Mozilla/5.0 (compatible; GolwarcBot/1.0)");
            EReport "http://a/" (ErrStatusCode 500)]
  | None => False
  end.
Proof.
  intros s acts. destruct (exec acts (start s)) as [st|] eqn:He.
  - split.
    + refine (proj2 (proj2 (proj2 (Run_marks_before_fetching s acts st _ He))) _).
      * unfold acts. rewrite in_app_iff. intros [H | [H | [H | []]]]; try discriminate.
        apply repeat_spec in H. discriminate.
      * intros u b H. vm_compute in H. discriminate.
    + vm_compute in He. injection He as <-. vm_compute. auto.
  - vm_compute in He. discriminate.
Defined.

End VisitedCount.

Section Returning.
Import crawlers.

Lemma workers_ok_step (a : Action) (st st' : State) :
  workers_ok st -> step a st = Some st' -> workers_ok st'.
Proof.
  intros Hok Hs. destruct st as [sp p cap len ws lg]. unfold workers_ok in *.
  simpl in *. destruct a.
  - unfold step, main_step in Hs. simpl in Hs.
    destruct p;
      repeat match type of Hs with
             | context [if ?b then _ else _] => destruct b
             | context [match ?q with [] => _ | _ :: _ => _ end] => destruct q
             end;
      try discriminate; injection Hs as <-; simpl; auto.
    intros w Hin. apply in_app_or in Hin as [Hin | [<- | []]]; auto.
    apply crawlURL_stage_ok.
  - unfold step in Hs. simpl in Hs.
    destruct (nth_error ws i) as [w|] eqn:Hnth; [|discriminate].
    destruct (worker_step sp w a) as [[[stage ev] released]|] eqn:Hw; [|discriminate].
    assert (Hin : In w ws) by (eapply nth_error_In; eauto).
    destruct (worker_step_summary _ _ _ _ _ _ Hw (Hok w Hin)) as (Hst & _).
    destruct released; [destruct (0 <? len); [|discriminate]|];
      injection Hs as <-; simpl; intros w' Hin';
      apply In_set_nth in Hin' as [-> | Hin']; auto.
  - injection Hs as <-. auto.
  - injection Hs as <-. auto.
  - injection Hs as <-. auto.
Qed.




Lemma run_inv_step (s : Spider) (a : Action) (st st' : State) :
  run_inv s st -> step a st = Some st' -> run_inv s st'.
Proof.
  intros [H1 H2 H3 H4 H5 H6 H7 H8 H9] Hs.
  pose proof (workers_ok_step a st st' H8 Hs) as Hok'.
  destruct st as [sp p cap len ws lg]. simpl in *. destruct a.
  - unfold step, main_step in Hs. simpl in Hs.
    destruct p;
      repeat match type of Hs with
             | context [if ?b then _ else _] => destruct b eqn:?
             | context [match ?q with [] => _ | _ :: _ => _ end] => destruct q eqn:?
             end;
      try discriminate; try congruence; injection Hs as <-;
      constructor; simpl in *; try discriminate; try assumption; try lia.
    all: rewrite count_snoc; simpl; lia.
  - unfold step in Hs. simpl in Hs.
    destruct (nth_error ws i) as [w|] eqn:Hnth; [|discriminate].
    destruct (worker_step sp w a) as [[[stage ev] released]|] eqn:Hw; [|discriminate].
    assert (Hin : In w ws) by (eapply nth_error_In; eauto).
    destruct (worker_step_summary _ _ _ _ _ _ Hw (H8 w Hin))
      as (_ & _ & _ & Hlive & Hrel & _).
    pose proof (count_set_nth live i (mkWorker (w_url w) stage) w ws Hnth) as Hc.
    rewrite Hlive in Hc.
    destruct released; [destruct (0 <? len) eqn:Hpos; [|discriminate]|];
      injection Hs as <-; symmetry in Hrel;
      [apply negb_true_iff in Hrel | apply negb_false_iff in Hrel];
      rewrite Hrel in Hc;
      constructor; simpl in *; try assumption; try lia.
    all: intros Hp; destruct (H9 Hp); split; [auto | lia].
  - injection Hs as <-. constructor; simpl in *; try assumption; try lia.
    all: intros Hp; destruct (H9 Hp); split; [auto | lia].
  - injection Hs as <-. constructor; simpl in *; try assumption; try lia.
    all: intros Hp; destruct (H9 Hp); split; [auto | lia].
  - injection Hs as <-. constructor; simpl in *; try assumption; try lia.
    all: intros Hp; destruct (H9 Hp); split; [auto | lia].
Qed.





(** The state right after the entry of [Run] on a spider that may run. *)
Lemma run_inv_entered (s : Spider) :
  running s = false -> 0 <= concurrency s ->
  step AMain (start s)
  = Some (mkState (set_running true s) PLoop (concurrency s) 0 [] [])
  /\ run_inv s (mkState (set_running true s) PLoop (concurrency s) 0 [] []).
Proof.
  intros Hr Hc. split.
  - unfold step, main_step. simpl. rewrite Hr.
    destruct (concurrency s <? 0) eqn:E; [apply Z.ltb_lt in E; lia | reflexivity].
  - constructor; simpl; try discriminate; try lia; try assumption.
    all: try (intros w []).
    all: unfold count; simpl; lia.
Qed.

Lemma run_inv_exec (s : Spider) (acts : list Action) (st st' : State) :
  run_inv s st -> exec acts st = Some st' -> run_inv s st'.
Proof.
  intros Hinv He.
  refine (exec_invariant (fun _ => true) (run_inv s) _ acts st st'
            (forallb_true acts) Hinv He).
  intros a st1 st2 _. apply run_inv_step.
Qed.





(** Unless somebody adds to it meanwhile, the queue is empty once the loop
    of [Run] is left. *)
Lemma drained_exec (acts : list Action) (st st' : State) :
  forallb (fun a => negb (is_push a)) acts = true ->
  pc st <> PWait -> pc st <> PReturned None ->
  exec acts st = Some st' ->
  pc st' = PWait \/ pc st' = PReturned None -> queue (spider st') = [].
Proof.
  intros Hacts Hw Hr He.
  refine (exec_invariant (fun a => negb (is_push a))
            (fun st => pc st = PWait \/ pc st = PReturned None -> queue (spider st) = [])
            _ acts st st' Hacts _ He).
  - clear. intros a st st' Ha HP Hs. destruct st as [sp p cap len ws lg].
    simpl in *. destruct a; try discriminate.
    + unfold step, main_step in Hs. simpl in Hs.
      destruct p;
        repeat match type of Hs with
               | context [if ?b then _ else _] => destruct b eqn:?
               | context [match ?q with [] => _ | _ :: _ => _ end] => destruct q eqn:?
               end;
        try discriminate; injection Hs as <-; simpl;
        intros [H | H]; try discriminate; auto.
      match goal with H : (0 <? _) = false |- _ => apply Z.ltb_ge in H end.
      destruct (queue sp); [reflexivity | simpl length in *; lia].
    + unfold step in Hs. simpl in Hs.
      destruct (nth_error ws i); [|discriminate].
      destruct (worker_step sp w a) as [[[stage ev] [|]]|]; try discriminate.
      * destruct (0 <? len); [|discriminate]. injection Hs as <-. exact HP.
      * injection Hs as <-. exact HP.
    + injection Hs as <-. exact HP.
    + injection Hs as <-. exact HP.
  - intros [H | H]; contradiction.
Qed.



End Returning.

(** ** Validation and [Stop] in [Run] *)

Section Dispatch.
Import crawlers.

(** C1, as the code has it. [Run] applies no validation. The goroutine it
    starts for a URL runs [crawlURL]; for a URL that [url.Parse] accepts
    the first thing [crawlURL] does is the HTTP request, which the
    goroutine can make as its first step; [crawlURL] makes no DNS lookup of
    its own at all; and only a URL that [url.Parse] refuses is kept from
    the network. What [ValidateURL] says of the URL plays no part. *)
Theorem Run_fetches_without_validation (st : State) (u : string) :
  pc st = PSpawn u ->
  exists st',
    step AMain st = Some st'
    /\ workers st' = (workers st ++ [mkWorker u (SCrawl (crawlURL (spider st) u))])%list
    /\ (forall w, List.filter is_lookup (calls w (crawlURL (spider st) u)) = [])
    /\ (forall parsed r,
          url.Parse u = inr parsed ->
          exists st'',
            step (AWorker (length (workers st)) (AHttp r)) st' = Some st''
            /\ log st''
               = (log st' ++ [EFetch u (mkRequest "GET" u (userAgent (spider st)))])%list)
    /\ (forall e,
          url.Parse u = inl e -> crawlURL (spider st) u = Ret (Some (ErrNewRequest e))).
Proof.
  intros Hp. destruct st as [sp p cap len ws lg]. simpl in *. subst p.
  eexists. split; [reflexivity|]. simpl. split; [reflexivity|].
  refine (conj _ (conj _ _)).
  - intros w. destruct (url.Parse u) as [e|parsed] eqn:E.
    + now rewrite (crawlURL_unparsed _ _ _ E).
    + rewrite (crawlURL_parsed _ _ _ E), calls_HttpDo. simpl.
      apply after_response_no_lookup.
  - intros parsed r E. unfold step. simpl.
    rewrite nth_error_app2 by lia. rewrite Nat.sub_diag. simpl.
    rewrite (crawlURL_parsed _ _ _ E). simpl. eexists. split; reflexivity.
  - intros e E. apply crawlURL_unparsed, E.
Qed.

(** C1 at http://127.0.0.1:8080/api, as it is dispatched. *)
Lemma Run_fetches_without_validation_witness :
  exists st',
    step AMain
      (mkState (set_visited (<["http://127.0.0.1:8080/api" := true]> ∅) NewDefaultSpider)
         (PSpawn "http://127.0.0.1:8080/api") 5 1 [] [])
    = Some st'
    /\ workers st'
       = [mkWorker "http://127.0.0.1:8080/api"
            (SCrawl (crawlURL NewDefaultSpider "http://127.0.0.1:8080/api"))].
Proof.
  destruct (Run_fetches_without_validation
              (mkState (set_visited (<["http://127.0.0.1:8080/api" := true]> ∅)
                          NewDefaultSpider)
                 (PSpawn "http://127.0.0.1:8080/api") 5 1 [] [])
              "http://127.0.0.1:8080/api" eq_refl) as (st' & Hs & Hw & _).
  exists st'. split; [exact Hs | exact Hw].
Defined.

(** Against C1 as it is worded: the validator rejects
    http://127.0.0.1:8080/api, and [Run] requests it. *)
Lemma Run_fetches_a_rejected_URL :
  libs.ValidateURL "http://127.0.0.1:8080/api" = Ret (Some libs.ErrLocalhost)
  /\ option_map log
       (exec (repeat AMain 7 ++ [AWorker 0 (AHttp (Response 200 ""))])%list
          (start (AddStartURL "http://127.0.0.1:8080/api" NewDefaultSpider)))
     = Some [EPop "http://127.0.0.1:8080/api"; EMark "http://127.0.0.1:8080/api";
             EGo "http://127.0.0.1:8080/api";
             EFetch "http://127.0.0.1:8080/api"
               (mkRequest "GET" "http://127.0.0.1:8080/api"
                  "Mozilla/5.0 (compatible; GolwarcBot/1.0)")].
Proof. split; vm_compute; reflexivity. Qed.

(** [Stop] writes the running flag and nothing else. *)
Lemma Stop_only_clears_the_flag (st : State) :
  step AStop st
  = Some (mkState (set_running false (spider st)) (pc st) (sem_cap st) (sem_len st)
            (workers st) (log st ++ [EStop])).
Proof. reflexivity. Qed.

(** Past its entry [Run] never reads the flag: it takes the same step with
    the flag cleared as with the flag set. *)
Lemma Stop_is_not_read_by_the_loop (st : State) :
  pc st <> PEntry ->
  main_step (with_spider (Stop (spider st)) st)
  = option_map (fun st' => with_spider (Stop (spider st')) st') (main_step st).
Proof.
  intros Hp. destruct st as [sp p cap len ws lg]. unfold main_step. simpl.
  destruct p; try reflexivity; try contradiction; simpl.
  - destruct (0 <? Z.of_nat (length (queue sp))); reflexivity.
  - destruct (queue sp); reflexivity.
  - unfold isVisited. simpl. destruct (default false (visited sp !! currentURL));
      reflexivity.
  - destruct (len <? cap); reflexivity.
  - destruct (wg sp =? 0); reflexivity.
Qed.

(** C7 evaluated. [Stop] is called right after [Run] has started, with
    http://a/ and http://b/ queued: the loop goes on, takes both from the
    queue and starts a goroutine for each, and the spider says it is not
    running meanwhile; the request of a goroutine under way is answered
    after a [Stop] as before it. *)
Theorem Stop_does_not_end_the_loop :
  let s := AddStartURL "http://b/" (AddStartURL "http://a/" NewDefaultSpider) in
  option_map (fun st => (log st, pc st, IsRunning (spider st), queue (spider st)))
    (exec ([AMain; AStop] ++ repeat AMain 13)%list (start s))
  = Some ([EStop; EPop "http://a/"; EMark "http://a/"; EGo "http://a/";
           EPop "http://b/"; EMark "http://b/"; EGo "http://b/"],
          PWait, false, [])
  /\ option_map (fun st => List.filter (is_fetch "http://a/") (log st))
       (exec (repeat AMain 7 ++ [AStop; AWorker 0 (AHttp (Response 200 ""))])%list
          (start s))
     = Some [EFetch "http://a/"
               (mkRequest "GET" "http://a/" "Mozilla/5.0 (compatible; GolwarcBot/1.0)")].
Proof. split; vm_compute; reflexivity. Qed.

End Dispatch.

(** * Further properties *)

(** ** The configuration validators *)

Section Settings.
Import settings.

(** X1. [ValidateCrawlerConfig] accepts exactly a user agent that is not
    empty with a depth from 1 to 10 and a concurrency from 1 to 100; it
    reports the first of the three that fails, in this order. *)
Theorem ValidateCrawlerConfig_accepts (userAgent : string) (maxDepth concurrency : Z) :
  (ValidateCrawlerConfig userAgent maxDepth concurrency = None
   <-> userAgent <> "" /\ 1 <= maxDepth <= 10 /\ 1 <= concurrency <= 100)
  /\ (ValidateCrawlerConfig userAgent maxDepth concurrency = Some ErrUserAgentEmpty
      <-> userAgent = "")
  /\ (ValidateCrawlerConfig userAgent maxDepth concurrency = Some ErrMaxDepthRange
      <-> userAgent <> "" /\ ~ 1 <= maxDepth <= 10)
  /\ (ValidateCrawlerConfig userAgent maxDepth concurrency = Some ErrConcurrencyRange
      <-> userAgent <> "" /\ 1 <= maxDepth <= 10 /\ ~ 1 <= concurrency <= 100).
Proof.
  unfold ValidateCrawlerConfig.
  destruct (String.eqb_spec userAgent "") as [->|Hua];
    [repeat split; intros; try discriminate; try tauto; try reflexivity;
     try (exfalso; intuition congruence)|].
  destruct (Z.ltb_spec maxDepth 1), (Z.gtb_spec maxDepth 10),
    (Z.ltb_spec concurrency 1), (Z.gtb_spec concurrency 100); simpl;
    repeat split; intros; try discriminate; try congruence; try lia;
    try (exfalso; intuition (congruence || lia)); intuition lia.
Qed.


(** X2. The other range validators: a timeout is accepted exactly from 1
    to 300 seconds; a database configuration exactly with a host, a port
    from 1 to 65535 and a name; a cache configuration exactly with an
    address and a database number from 0 to 15. Each reports the first
    check that fails. *)
Theorem range_validators_accept (timeout port db : Z) (host database addr : string) :
  (ValidateTimeout timeout = None <-> 1 <= timeout <= 300)
  /\ (ValidateTimeout timeout = Some ErrTimeoutLow <-> timeout < 1)
  /\ (ValidateTimeout timeout = Some ErrTimeoutHigh <-> 300 < timeout)
  /\ (ValidateDatabaseConfig host port database = None
      <-> host <> "" /\ 1 <= port <= 65535 /\ database <> "")
  /\ (ValidateDatabaseConfig host port database = Some ErrDatabaseHostEmpty
      <-> host = "")
  /\ (ValidateDatabaseConfig host port database = Some ErrDatabasePortRange
      <-> host <> "" /\ ~ 1 <= port <= 65535)
  /\ (ValidateDatabaseConfig host port database = Some ErrDatabaseNameEmpty
      <-> host <> "" /\ 1 <= port <= 65535 /\ database = "")
  /\ (ValidateCacheConfig addr db = None <-> addr <> "" /\ 0 <= db <= 15)
  /\ (ValidateCacheConfig addr db = Some ErrCacheAddrEmpty <-> addr = "")
  /\ (ValidateCacheConfig addr db = Some ErrCacheDBRange
      <-> addr <> "" /\ ~ 0 <= db <= 15).
Proof.
  unfold ValidateTimeout, ValidateDatabaseConfig, ValidateCacheConfig.
  refine (conj _ (conj _ (conj _ (conj _ (conj _ (conj _ (conj _
           (conj _ (conj _ _))))))))).
  1-3: destruct (Z.ltb_spec timeout 1), (Z.gtb_spec timeout 300);
    split; intros; try discriminate; try reflexivity; lia.
  1-4: destruct (String.eqb_spec host ""), (String.eqb_spec database ""),
    (Z.ltb_spec port 1), (Z.gtb_spec port 65535); simpl;
    split; intros; try discriminate; try reflexivity;
    try (exfalso; intuition (congruence || lia)); intuition (congruence || lia).
  1-3: destruct (String.eqb_spec addr ""), (Z.ltb_spec db 0), (Z.gtb_spec db 15);
    simpl; split; intros; try discriminate; try reflexivity;
    try (exfalso; intuition (congruence || lia)); intuition (congruence || lia).
Qed.

End Settings.

(** ** More about [Run] *)

(** The cases of one step of [Run], and of one step of a goroutine. *)
Ltac main_cases Hs :=
  unfold crawlers.step, crawlers.main_step in Hs; simpl in Hs;
  repeat match type of Hs with
         | context [match ?p with crawlers.PEntry => _ | _ => _ end] => destruct p
         | context [if ?b then _ else _] => destruct b eqn:?
         | context [match ?q with [] => _ | _ :: _ => _ end] => destruct q eqn:?
         end;
  try discriminate; injection Hs as <-; simpl in *.

Ltac worker_cases Hs sp ws i a len w stage ev released Hnth Hw :=
  unfold crawlers.step in Hs; simpl in Hs;
  destruct (nth_error ws i) as [w|] eqn:Hnth; [|discriminate];
  destruct (crawlers.worker_step sp w a) as [[[stage ev] released]|] eqn:Hw;
    [|discriminate];
  destruct released; [destruct (0 <? len) eqn:?; [|discriminate]|];
  injection Hs as <-; simpl in *.

Ltac eqbs :=
  repeat match goal with
         | |- context [String.eqb ?a ?b] => destruct (String.eqb_spec a b); subst
         | H : context [String.eqb ?a ?b] |- _ => destruct (String.eqb_spec a b); subst
         end; simpl in *.

Ltac ifs :=
  repeat match goal with
         | |- context [if ?b then _ else _] => destruct b eqn:?
         | H : context [if ?b then _ else _] |- _ => destruct b eqn:?
         end.

Section MoreRun.
Import crawlers.



Lemma popped_app (l l' : list RunEvent) : popped (l ++ l') = (popped l ++ popped l')%list.
Proof. apply flat_map_app. Qed.

Lemma pushed_app (l l' : list RunEvent) : pushed (l ++ l') = (pushed l ++ pushed l')%list.
Proof. apply flat_map_app. Qed.

(** The steps of a goroutine take nothing from the queue and add nothing. *)
Lemma worker_step_queue (sp : Spider) (w : Worker) (a : Answer)
    (stage : Stage) (ev : list RunEvent) (released : bool) :
  worker_step sp w a = Some (stage, ev, released) -> popped ev = [] /\ pushed ev = [].
Proof.
  unfold worker_step.
  destruct (w_stage w) as [q| | |]; [destruct q as [[e|]| | | |]|..];
    destruct a; try discriminate; intros [= <- <- <-]; split; reflexivity.
Qed.

(** The queue and the log, under every schedule. *)
Lemma queue_order_exec (s : Spider) (acts : list Action) (st : State) :
  exec acts (start s) = Some st ->
  (popped (log st) ++ queue (spider st))%list = (queue s ++ pushed (log st))%list.
Proof.
  intros He.
  refine (exec_invariant (fun _ => true)
            (fun st => (popped (log st) ++ queue (spider st))%list
                       = (queue s ++ pushed (log st))%list)
            _ acts (start s) st (forallb_true acts) _ He).
  - clear. intros a st st' _ HP Hs. destruct st as [sp p cap len ws lg].
    simpl in *. destruct a.
    + main_cases Hs; rewrite ?app_nil_r, ?popped_app, ?pushed_app; simpl;
        rewrite ?app_nil_r; try exact HP.
      * rewrite Heql. exact HP.
      * rewrite <- app_assoc. exact HP.
    + worker_cases Hs sp ws i a len w stage ev released Hnth Hw;
        destruct (worker_step_queue _ _ _ _ _ _ Hw) as [Hpop Hpush];
        rewrite popped_app, pushed_app, Hpop, Hpush, !app_nil_r; exact HP.
    + injection Hs as <-. simpl. rewrite popped_app, pushed_app. simpl.
      rewrite app_nil_r, !app_assoc. now rewrite HP.
    + injection Hs as <-. simpl. rewrite popped_app, pushed_app. simpl.
      now rewrite !app_nil_r.
    + injection Hs as <-. simpl. rewrite popped_app, pushed_app. simpl.
      now rewrite !app_nil_r.
  - simpl. now rewrite app_nil_r.
Qed.

(** X4. The queue is first in, first out, and nothing is lost: the URLs
    [Run] has taken so far, followed by those still queued, are the URLs
    that were queued when [Run] was called followed by those
    [AddStartURL] has added since, in their order. *)
Theorem Run_takes_URLs_in_queue_order (s : Spider) (acts : list Action) (st : State) :
  exec acts (start s) = Some st ->
  (popped (log st) ++ queue (spider st))%list = (queue s ++ pushed (log st))%list.
Proof. apply queue_order_exec. Qed.

(** X4 on a run that takes two of three URLs while a fourth is added. *)
Lemma Run_takes_URLs_in_queue_order_witness :
  let s := AddStartURL "http://c/" (AddStartURL "http://b/" (AddStartURL "http://a/"
             NewDefaultSpider)) in
  match exec (repeat AMain 7 ++ AAddStartURL "http://d/" :: repeat AMain 2) (start s) with
  | Some st =>
      popped (log st) = ["http://a/"; "http://b/"]
      /\ queue (spider st) = ["http://c/"; "http://d/"]
      /\ (popped (log st) ++ queue (spider st))%list
         = (queue s ++ pushed (log st))%list
  | None => False
  end.
Proof.
  intros s.
  destruct (exec (repeat AMain 7 ++ AAddStartURL "http://d/" :: repeat AMain 2) (start s))
    as [st|] eqn:He.
  - pose proof (Run_takes_URLs_in_queue_order s _ st He) as H.
    vm_compute in He. injection He as <-. split; [reflexivity|]. split; [reflexivity|].
    exact H.
  - vm_compute in He. discriminate.
Defined.


(** X5. As long as nobody calls [Stop], [IsRunning] tells whether a call
    of [Run] is under way: it answers true from the entry of [Run] until
    [Run] returns, and false once it has returned. *)
Theorem IsRunning_tells_Run_is_under_way (s : Spider) (acts : list Action) (st : State) :
  running s = false -> 0 <= concurrency s ->
  forallb (fun a => negb (is_stop a)) acts = true ->
  exec (AMain :: acts) (start s) = Some st ->
  IsRunning (spider st) = negb (over (pc st)).
Proof.
  intros Hr Hc Hacts He. simpl in He.
  destruct (run_inv_entered s Hr Hc) as [Hs _]. simpl in Hs. rewrite Hs in He.
  refine (proj2 (exec_invariant (fun a => negb (is_stop a))
            (fun st => pc st <> PEntry
                       /\ IsRunning (spider st) = negb (over (pc st)))
            _ acts _ st Hacts _ He)).
  - clear. intros a st st' Ha [Hp HP] Hs. destruct st as [sp p cap len ws lg].
    unfold IsRunning in *. simpl in *. destruct a; try discriminate.
    + main_cases Hs; split; try discriminate; try congruence; auto.
    + worker_cases Hs sp ws i a len w stage ev released Hnth Hw; auto.
    + injection Hs as <-. auto.
    + injection Hs as <-. auto.
  - split; [discriminate | reflexivity].
Qed.

(** X5 on a run to its end, and on the same run stopped half way. *)
Lemma IsRunning_tells_Run_is_under_way_witness :
  let s := AddStartURL "http://a/" NewDefaultSpider in
  match exec (AMain :: repeat AMain 3) (start s) with
  | Some st => IsRunning (spider st) = true /\ pc st = PMark "http://a/"
  | None => False
  end.
Proof.
  intros s. destruct (exec (AMain :: repeat AMain 3) (start s)) as [st|] eqn:He.
  - assert (Hpc : pc st = PMark "http://a/").
    { vm_compute in He. injection He as <-. reflexivity. }
    split; [|exact Hpc].
    rewrite (IsRunning_tells_Run_is_under_way s (repeat AMain 3) st eq_refl
               ltac:(discriminate) eq_refl He), Hpc. reflexivity.
  - vm_compute in He. discriminate.
Defined.

(** The marks of the log, URL by URL, change with the visited map. *)
Lemma step_marks (a : Action) (st st' : State) :
  negb (is_clear a) = true -> step a st = Some st' ->
  (visited (spider st') = visited (spider st)
   /\ forall u, count (is_mark u) (log st') = count (is_mark u) (log st))
  \/ exists v, pc st = PMark v
               /\ visited (spider st') = <[v := true]> (visited (spider st))
               /\ log st' = (log st ++ [EMark v])%list.
Proof.
  intros Ha Hs. destruct st as [sp p cap len ws lg]. destruct a; try discriminate.
  - unfold step, main_step in Hs. simpl in Hs.
    destruct p; simpl;
      repeat match type of Hs with
             | context [if ?b then _ else _] => destruct b
             | context [match ?q with [] => _ | _ :: _ => _ end] => destruct q
             end;
      try discriminate; injection Hs as <-; simpl; eauto; left;
      (split; [reflexivity|]); intros u;
      rewrite ?app_nil_r, ?count_snoc; simpl; lia.
  - unfold step in Hs. simpl in Hs.
    destruct (nth_error ws i) as [w|]; [|discriminate].
    destruct (worker_step sp w a) as [[[stage ev] released]|] eqn:Hw; [|discriminate].
    assert (Hev : forall u, count (is_mark u) ev = 0%nat).
    { intros u. unfold worker_step in Hw.
      destruct (w_stage w) as [q| | |]; [destruct q as [[e|]| | | |]|..];
        destruct a; try discriminate; injection Hw as <- <- <-; reflexivity. }
    left. destruct released; [destruct (0 <? len); [|discriminate]|];
      injection Hs as <-; simpl; (split; [reflexivity|]); intros u;
      rewrite count_app, Hev; lia.
  - injection Hs as <-. left. simpl. split; [reflexivity|]. intros x.
    rewrite count_snoc. simpl. lia.
  - injection Hs as <-. left. simpl. split; [reflexivity|]. intros x.
    rewrite count_snoc. simpl. lia.
Qed.

Lemma isVisited_after_insert (sp sp' : Spider) (v u : string) :
  visited sp' = <[v := true]> (visited sp) ->
  isVisited sp' u = (String.eqb v u || isVisited sp u)%bool.
Proof.
  intros H. unfold isVisited. rewrite H. destruct (String.eqb_spec v u) as [->|Hne].
  - now rewrite lookup_insert_eq.
  - now rewrite lookup_insert_ne.
Qed.

(** X6. A URL that is in the visited map when [Run] is called is not
    fetched by this call, as long as the map is not cleared: it is never
    marked again, no goroutine is started for it, no request is made for
    it, and every time it is taken from the queue it is skipped. *)
Theorem Run_skips_what_was_visited
    (s : Spider) (acts : list Action) (st : State) (u : string) :
  ~ In AClearVisited acts ->
  isVisited s u = true ->
  exec acts (start s) = Some st ->
  count (is_fetch u) (log st) = 0%nat
  /\ count (is_go u) (log st) = 0%nat
  /\ count (is_mark u) (log st) = 0%nat
  /\ count (is_pop u) (log st)
     = (count (is_skip u) (log st) + checking u (pc st))%nat
  /\ pc st <> PMark u
  /\ isVisited (spider st) u = true.
Proof.
  intros Hc Hv He.
  pose proof (session_inv_exec s acts st Hc He) as Hinv.
  assert (HP : isVisited (spider st) u = true /\ count (is_mark u) (log st) = 0%nat).
  { refine (proj2 (exec_invariant (fun a => negb (is_clear a))
              (fun st => session_inv st
                         /\ isVisited (spider st) u = true
                         /\ count (is_mark u) (log st) = 0%nat)
              _ acts (start s) st (no_clear_forallb acts Hc) _ He)).
    - intros a st1 st2 Ha (Hi & Hvis & Hm) Hs.
      split; [exact (session_inv_step a st1 st2 Ha Hi Hs)|].
      destruct (step_marks a st1 st2 Ha Hs) as [[Hvm Hl] | (v & Hpc & Hvm & Hl)].
      + split; [|now rewrite Hl]. unfold isVisited in *. now rewrite Hvm.
      + rewrite (isVisited_after_insert _ _ v u Hvm), Hvis, orb_true_r.
        split; [reflexivity|]. rewrite Hl, count_snoc, Hm. simpl.
        destruct (String.eqb_spec v u) as [->|]; [|reflexivity].
        rewrite (si_mark_pending st1 Hi u Hpc) in Hvis. discriminate.
    - split; [apply session_inv_start|]. split; [exact Hv | reflexivity]. }
  destruct HP as [Hvis Hm].
  pose proof (si_mark_go st Hinv u). pose proof (si_fetch_go st Hinv u).
  pose proof (si_pops st Hinv u).
  repeat match goal with |- _ /\ _ => split end; try lia; [|exact Hvis].
  intros Hpc. rewrite (si_mark_pending st Hinv u Hpc) in Hvis. discriminate.
Qed.

(** X6 on a spider that has visited the one URL it is given. *)
Lemma Run_skips_what_was_visited_witness :
  let s := set_visited (<["http://a/" := true]> ∅)
             (AddStartURL "http://a/" NewDefaultSpider) in
  match exec (repeat AMain 6) (start s) with
  | Some st =>
      count (is_fetch "http://a/") (log st) = 0%nat
      /\ log st = [EPop "http://a/"; ESkip "http://a/"]
      /\ pc st = PReturned None
  | None => False
  end.
Proof.
  intros s. destruct (exec (repeat AMain 6) (start s)) as [st|] eqn:He.
  - assert (Hcl : ~ In AClearVisited (repeat AMain 6)).
    { intros H. apply repeat_spec in H. discriminate. }
    assert (Hv : isVisited s "http://a/" = true) by (vm_compute; reflexivity).
    pose proof (proj1 (Run_skips_what_was_visited s _ st "http://a/" Hcl Hv He)) as H.
    vm_compute in He. injection He as <-.
    split; [exact H|]. split; reflexivity.
  - vm_compute in He. discriminate.
Defined.

End MoreRun.

Section Flow.
Import crawlers.

Lemma flow_inv_step (a : Action) (st st' : State) :
  flow_inv st -> step a st = Some st' -> flow_inv st'.
Proof.
  intros (H1 & H2 & H3 & H4) Hs.
  pose proof (workers_ok_step a st st' H4 Hs) as Hok'.
  destruct st as [sp p cap len ws lg]. simpl in *. destruct a.
  - main_cases Hs; (split; [|split; [|split; [|exact Hok']]]); simpl; intros x;
      specialize (H1 x); specialize (H2 x); specialize (H3 x); simpl in *;
      rewrite ?app_nil_r, ?count_snoc, ?count_app; simpl; eqbs; try lia.
    all: rewrite about_to_fetch_mk; eqbs; try congruence;
      repeat match goal with
             | |- context [if ?b then 1%nat else 0%nat] => destruct b
             end; lia.
  - unfold step in Hs. simpl in Hs.
    destruct (nth_error ws i) as [w|] eqn:Hnth; [|discriminate].
    destruct (worker_step sp w a) as [[[stage ev] released]|] eqn:Hw; [|discriminate].
    assert (Hin : In w ws) by (eapply nth_error_In; eauto).
    destruct (worker_step_summary _ _ _ _ _ _ Hw (H4 w Hin))
      as (_ & Hhttp & _ & _ & _ & Hev & Hnil).
    assert (Hcount : forall u,
               (count (about_to_fetch u) (set_nth i (mkWorker (w_url w) stage) ws)
                + (if (String.eqb (w_url w) u && at_http (w_stage w))%bool then 1 else 0)
                = count (about_to_fetch u) ws)%nat).
    { intros u.
      pose proof (count_set_nth (about_to_fetch u) i (mkWorker (w_url w) stage) w ws Hnth)
        as Hc.
      rewrite about_to_fetch_mk, Hhttp, andb_false_r in Hc.
      unfold about_to_fetch in Hc at 2. lia. }
    assert (Hst' : exists sp' len',
              st' = mkState sp' p cap len'
                      (set_nth i (mkWorker (w_url w) stage) ws) (lg ++ ev)).
    { destruct released; [destruct (0 <? len); [|discriminate]|];
        injection Hs as <-; do 2 eexists; reflexivity. }
    clear Hs. destruct Hst' as (sp' & len' & ->).
    split; [|split; [|split; [|exact Hok']]]; simpl; intros x;
      specialize (H1 x); specialize (H2 x); specialize (H3 x); specialize (Hcount x);
      destruct Hev as [-> | [(req & -> & Hat) | (Hat & [-> | [-> | (e & ->)]])]];
      try (pose proof (Hnil eq_refl) as Hat);
      rewrite Hat in Hcount; rewrite ?andb_true_r, ?andb_false_r in Hcount;
      rewrite ?app_nil_r, ?count_snoc; simpl; eqbs; lia.
  - injection Hs as <-.
    split; [|split; [|split; [|exact Hok']]]; simpl; intros x;
      specialize (H1 x); specialize (H2 x); specialize (H3 x);
      rewrite ?count_snoc; simpl; lia.
  - injection Hs as <-.
    split; [|split; [|split; [|exact Hok']]]; simpl; intros x;
      specialize (H1 x); specialize (H2 x); specialize (H3 x);
      rewrite ?count_snoc; simpl; lia.
  - injection Hs as <-.
    split; [|split; [|split; [|exact Hok']]]; simpl; intros x;
      specialize (H1 x); specialize (H2 x); specialize (H3 x);
      rewrite ?count_snoc; simpl; lia.
Qed.

Lemma flow_inv_exec (s : Spider) (acts : list Action) (st : State) :
  exec acts (start s) = Some st -> flow_inv st.
Proof.
  intros He.
  refine (exec_invariant (fun _ => true) flow_inv _ acts (start s) st
            (forallb_true acts) _ He).
  - intros a st1 st2 _. apply flow_inv_step.
  - repeat split; simpl; try (intros w []); intros; unfold count; simpl; lia.
Qed.

Lemma count_pop_popped (u : string) (l : list RunEvent) :
  count (is_pop u) l = count (fun v => String.eqb v u) (popped l).
Proof.
  induction l as [|e l IH]; [reflexivity|].
  rewrite count_cons. change (popped (e :: l)) with
    ((match e with EPop v => [v] | _ => [] end) ++ popped l)%list.
  rewrite count_app, <- IH. destruct e; simpl; try reflexivity.
  rewrite count_one. reflexivity.
Qed.


(** X7. Under every schedule, [ClearVisited], [AddStartURL] and [Stop]
    included, a URL is requested at most as many times as it was put in
    the queue: each request is made by a goroutine of its own, started
    for one taking of the URL from the queue. *)
Theorem Run_fetches_no_more_than_queued
    (s : Spider) (acts : list Action) (st : State) (u : string) :
  exec acts (start s) = Some st ->
  (count (is_fetch u) (log st) <= count (is_go u) (log st))%nat
  /\ (count (is_go u) (log st) <= count (is_pop u) (log st))%nat
  /\ (count (is_pop u) (log st)
       <= count (fun v => String.eqb v u) (queue s)
          + count (fun v => String.eqb v u) (pushed (log st)))%nat.
Proof.
  intros He. destruct (flow_inv_exec s acts st He) as (H1 & H2 & H3 & _).
  specialize (H1 u). specialize (H2 u). specialize (H3 u).
  pose proof (f_equal (count (fun v => String.eqb v u)) (queue_order_exec s acts st He)) as Hq.
  rewrite !count_app, <- count_pop_popped in Hq. lia.
Qed.

(** X7 is as much as holds: a URL queued twice is requested twice when the
    visited map is cleared in between. *)
Lemma Run_fetches_no_more_than_queued_witness :
  let s := AddStartURL "http://a/" (AddStartURL "http://a/" NewDefaultSpider) in
  let acts := (repeat AMain 7 ++ AWorker 0 (AHttp (Response 200 "")) :: AClearVisited
               :: repeat AMain 6 ++ [AWorker 1 (AHttp (Response 200 ""))])%list in
  match exec acts (start s) with
  | Some st => count (is_fetch "http://a/") (log st) = 2%nat
               /\ (count (is_fetch "http://a/") (log st)
                   <= count (is_go "http://a/") (log st))%nat
  | None => False
  end.
Proof.
  intros s acts. destruct (exec acts (start s)) as [st|] eqn:He.
  - pose proof (proj1 (Run_fetches_no_more_than_queued s acts st "http://a/" He)) as H.
    vm_compute in He. injection He as <-. split; [reflexivity | exact H].
  - vm_compute in He. discriminate.
Defined.






End Flow.

Section Complete.
Import crawlers.

Lemma at_http_crawlURL (sp : Spider) (u : string) :
  at_http (SCrawl (crawlURL sp u)) = parses u.
Proof.
  unfold parses, crawlURL, NewRequest. now destruct (url.Parse u).
Qed.

Lemma crawl_inv_step (s : Spider) (a : Action) (st st' : State) :
  negb (is_clear a) = true -> crawl_inv s st -> step a st = Some st' -> crawl_inv s st'.
Proof.
  intros Ha (H1 & H2 & H3 & H4) Hs.
  pose proof (workers_ok_step a st st' H4 Hs) as Hok'.
  destruct st as [sp p cap len ws lg]. simpl in *. destruct a; try discriminate.
  - main_cases Hs; (split; [|split; [|split; [|exact Hok']]]); simpl; intros x;
      specialize (H1 x); specialize (H2 x); specialize (H3 x);
      rewrite ?app_nil_r, ?count_snoc, ?isVisited_insert; simpl;
      try assumption.
    all: try (rewrite ?about_to_fetch_mk, ?at_http_crawlURL; eqbs; ifs; try lia;
              try congruence; intros; try (apply H2; lia);
              try (destruct H3 as [H3 | H3]; [assumption | now left | right; lia]);
              auto; fail).
  - unfold step in Hs. simpl in Hs.
    destruct (nth_error ws i) as [w|] eqn:Hnth; [|discriminate].
    destruct (worker_step sp w a) as [[[stage ev] released]|] eqn:Hw; [|discriminate].
    assert (Hin : In w ws) by (eapply nth_error_In; eauto).
    destruct (worker_step_summary _ _ _ _ _ _ Hw (H4 w Hin))
      as (_ & Hhttp & _ & _ & _ & Hev & Hnil).
    assert (Hcount : forall u,
               (count (about_to_fetch u) (set_nth i (mkWorker (w_url w) stage) ws)
                + (if (String.eqb (w_url w) u && at_http (w_stage w))%bool then 1 else 0)
                = count (about_to_fetch u) ws)%nat).
    { intros u.
      pose proof (count_set_nth (about_to_fetch u) i (mkWorker (w_url w) stage) w ws Hnth)
        as Hc.
      rewrite about_to_fetch_mk, Hhttp, andb_false_r in Hc.
      unfold about_to_fetch in Hc at 2. lia. }
    assert (Hst' : exists sp' len',
              st' = mkState sp' p cap len'
                      (set_nth i (mkWorker (w_url w) stage) ws) (lg ++ ev)
              /\ visited sp' = visited sp).
    { destruct released; [destruct (0 <? len); [|discriminate]|];
        injection Hs as <-; do 2 eexists; split; reflexivity. }
    clear Hs. destruct Hst' as (sp' & len' & -> & Hvis).
    assert (Hvisited : forall u, isVisited sp' u = isVisited sp u).
    { intros u. unfold isVisited. now rewrite Hvis. }
    split; [|split; [|split; [|exact Hok']]]; simpl; intros x;
      specialize (H1 x); specialize (H2 x); specialize (H3 x); specialize (Hcount x);
      rewrite ?Hvisited;
      destruct Hev as [-> | [(req & -> & Hat) | (Hat & [-> | [-> | (e & ->)]])]];
      try (pose proof (Hnil eq_refl) as Hat);
      rewrite Hat in Hcount; rewrite ?andb_true_r, ?andb_false_r in Hcount;
      rewrite ?app_nil_r, ?count_snoc; simpl; rewrite ?Nat.add_0_r;
      try assumption; eqbs; ifs; try lia.
  - injection Hs as <-.
    split; [|split; [|split; [|exact Hok']]]; simpl; intros x;
      specialize (H1 x); specialize (H2 x); specialize (H3 x);
      rewrite ?count_snoc; simpl; rewrite ?Nat.add_0_r; assumption.
  - injection Hs as <-.
    split; [|split; [|split; [|exact Hok']]]; simpl; intros x;
      specialize (H1 x); specialize (H2 x); specialize (H3 x);
      rewrite ?count_snoc; simpl; rewrite ?Nat.add_0_r; assumption.
Qed.

Lemma crawl_inv_exec (s : Spider) (acts : list Action) (st : State) :
  ~ In AClearVisited acts -> exec acts (start s) = Some st -> crawl_inv s st.
Proof.
  intros Hc He.
  refine (exec_invariant (fun a => negb (is_clear a)) (crawl_inv s) (crawl_inv_step s)
            acts (start s) st (no_clear_forallb acts Hc) _ He).
  split; [|split; [|split]]; simpl.
  - intros u. unfold count. simpl. now destruct (parses u).
  - intros u. unfold count. simpl. lia.
  - auto.
  - intros w [].
Qed.

Lemma exited_not_fetching (u : string) (ws : list Worker) :
  count live ws = 0%nat -> count (about_to_fetch u) ws = 0%nat.
Proof.
  induction ws as [|w ws IH]; [reflexivity|].
  rewrite !count_cons. unfold about_to_fetch at 1, live at 1.
  destruct (w_stage w); simpl; try lia. rewrite andb_false_r. exact IH.
Qed.

(** Without [AddStartURL], nothing is logged as added. *)
Lemma no_push_exec (acts : list Action) (st st' : State) :
  forallb (fun a => negb (is_push a)) acts = true ->
  exec acts st = Some st' -> pushed (log st') = pushed (log st).
Proof.
  intros Hacts He.
  refine (exec_invariant (fun a => negb (is_push a))
            (fun x => pushed (log x) = pushed (log st)) _ acts st st' Hacts eq_refl He).
  clear. intros a st1 st2 Ha HP Hs. destruct st1 as [sp p cap len ws lg].
  simpl in *. destruct a; try discriminate.
  - main_cases Hs; rewrite ?pushed_app, ?app_nil_r; simpl; rewrite ?app_nil_r; exact HP.
  - unfold step in Hs. simpl in Hs.
    destruct (nth_error ws i) as [w|]; [|discriminate].
    destruct (worker_step sp w a) as [[[stage ev] released]|] eqn:Hw; [|discriminate].
    destruct (worker_step_queue _ _ _ _ _ _ Hw) as [_ Hpush].
    destruct released; [destruct (0 <? len); [|discriminate]|];
      injection Hs as <-; simpl; rewrite pushed_app, Hpush, app_nil_r; exact HP.
  - injection Hs as <-. simpl. rewrite pushed_app. simpl. now rewrite app_nil_r.
  - injection Hs as <-. simpl. rewrite pushed_app. simpl. now rewrite app_nil_r.
Qed.

Lemma In_popped_count (u : string) (l : list RunEvent) :
  In u (popped l) -> (1 <= count (is_pop u) l)%nat.
Proof.
  intros H. unfold popped in H. apply in_flat_map in H as (e & Hin & He).
  destruct e; try contradiction. destruct He as [-> | []].
  apply (In_count_pos _ _ _ Hin). simpl. apply String.eqb_refl.
Qed.

(** X9. When [Run] has returned and the visited map was not cleared
    meanwhile, the work is done: every URL it took from the queue is
    visited, and each of them that was not visited before the call has been
    requested exactly once if [http.NewRequest] accepts it, and not at all
    if not. When nothing was added meanwhile, the URLs taken are those that
    were queued, in their order, and the queue is empty. *)
Theorem Run_crawls_every_new_URL (s : Spider) (acts : list Action) (st : State) :
  running s = false -> 0 <= concurrency s -> wg s = 0 ->
  ~ In AClearVisited acts ->
  exec (AMain :: acts) (start s) = Some st ->
  pc st = PReturned None ->
  (forall u, In u (popped (log st)) ->
     isVisited (spider st) u = true
     /\ (isVisited s u = false ->
         count (is_fetch u) (log st) = if parses u then 1%nat else 0%nat))
  /\ (forallb (fun a => negb (is_push a)) acts = true ->
      popped (log st) = queue s /\ queue (spider st) = []).
Proof.
  intros Hr Hc Hwg Hcl He Hp.
  assert (Hcl' : ~ In AClearVisited (AMain :: acts)).
  { intros [H | H]; [discriminate | contradiction]. }
  pose proof (session_inv_exec s _ st Hcl' He) as Hsi.
  destruct (crawl_inv_exec s _ st Hcl' He) as (C1 & C2 & C3 & _).
  pose proof (queue_order_exec s _ st He) as Hq.
  simpl in He. destruct (run_inv_entered s Hr Hc) as [Hs Hinv]. simpl in Hs.
  rewrite Hs in He. pose proof (run_inv_exec s acts _ st Hinv He) as Hri.
  destruct (ri_done s st Hri Hp) as [_ Hlive]. specialize (Hlive ltac:(lia)).
  split.
  - intros u Hin. apply In_popped_count in Hin.
    pose proof (si_pops st Hsi u) as Hpops. rewrite Hp in Hpops. simpl in Hpops.
    pose proof (si_mark_once st Hsi u) as Honce.
    pose proof (si_mark_go st Hsi u) as Hgo. rewrite Hp in Hgo. simpl in Hgo.
    assert (Hv : isVisited (spider st) u = true).
    { destruct (count (is_skip u) (log st)) eqn:E.
      - apply (si_mark_visited st Hsi). lia.
      - apply C2. lia. }
    split; [exact Hv|]. intros Hnew.
    destruct (C3 u Hv) as [Hold | Hm]; [congruence|].
    specialize (C1 u). rewrite (exited_not_fetching u _ Hlive) in C1.
    destruct (parses u); lia.
  - intros Hpush.
    assert (Hempty : queue (spider st) = []).
    { refine (drained_exec acts _ st Hpush _ _ He (or_intror Hp)); discriminate. }
    split; [|exact Hempty].
    rewrite (no_push_exec acts _ st Hpush He), Hempty in Hq. simpl in Hq.
    now rewrite !app_nil_r in Hq.
Qed.

(** X9 on a queue of two URLs, the second of which does not parse, run to
    its end. *)
Lemma Run_crawls_every_new_URL_witness :
  let s := AddStartURL "://bad" (AddStartURL "http://a/" NewDefaultSpider) in
  let acts :=
    (repeat AMain 13
     ++ [AWorker 0 (AHttp (Response 200 "")); AWorker 0 (ADoc (inr (mkDocument "")));
         AWorker 0 ANone; AWorker 0 ANone; AWorker 0 ANone;
         AWorker 1 ANone; AWorker 1 ANone; AWorker 1 ANone; AMain])%list in
  match exec (AMain :: acts) (start s) with
  | Some st =>
      pc st = PReturned None
      /\ count (is_fetch "http://a/") (log st) = 1%nat
      /\ count (is_fetch "://bad") (log st) = 0%nat
      /\ popped (log st) = ["http://a/"; "://bad"]
      /\ queue (spider st) = []
  | None => False
  end.
Proof.
  intros s acts. destruct (exec (AMain :: acts) (start s)) as [st|] eqn:He.
  - assert (Hp : pc st = PReturned None).
    { vm_compute in He. injection He as <-. reflexivity. }
    assert (Hcl : ~ In AClearVisited acts).
    { unfold acts. rewrite in_app_iff. intros [H | H].
      - apply repeat_spec in H. discriminate.
      - simpl in H. intuition discriminate. }
    destruct (Run_crawls_every_new_URL s acts st eq_refl ltac:(discriminate) eq_refl
                Hcl He Hp) as [Hall Hq].
    destruct (Hq eq_refl) as [Hpop Hempty].
    split; [exact Hp|].
    assert (Ha : In "http://a/" (popped (log st))) by (rewrite Hpop; simpl; auto).
    assert (Hb : In "://bad" (popped (log st))) by (rewrite Hpop; simpl; auto).
    assert (Hva : isVisited s "http://a/" = false) by (vm_compute; reflexivity).
    assert (Hvb : isVisited s "://bad" = false) by (vm_compute; reflexivity).
    assert (Hpa : parses "http://a/" = true) by (vm_compute; reflexivity).
    assert (Hpb : parses "://bad" = false) by (vm_compute; reflexivity).
    pose proof (proj2 (Hall _ Ha) Hva) as Hfa. rewrite Hpa in Hfa.
    pose proof (proj2 (Hall _ Hb) Hvb) as Hfb. rewrite Hpb in Hfb.
    split; [exact Hfa|]. split; [exact Hfb|].
    split; [exact Hpop | exact Hempty].
  - vm_compute in He. discriminate.
Defined.

End Complete.

(** ** [Run] at the edges of its configuration *)

Section Slots.
Import crawlers.

Lemma blocked_inv_step (a : Action) (st st' : State) :
  blocked_inv st -> step a st = Some st' -> blocked_inv st'.
Proof.
  intros (H1 & H2 & H3 & H4 & H5 & H6) Hs.
  destruct st as [sp p cap len ws lg]. simpl in *. subst ws cap len. destruct a.
  - main_cases Hs; try contradiction; unfold blocked_inv; simpl; rewrite ?app_nil_r;
      (split; [reflexivity|]); (split; [reflexivity|]); (split; [reflexivity|]);
      (split; [|split; [|exact I]]); try assumption.
    all: try (intros u Hin; apply in_app_or in Hin as [Hin | [Hin | []]];
              [specialize (H4 u Hin); discriminate | congruence]).
    all: try (intros u req Hin; apply in_app_or in Hin as [Hin | [Hin | []]];
              [exact (H5 u req Hin) | discriminate]).
    all: intros u Hin; specialize (H4 u Hin); discriminate.
  - unfold step in Hs. simpl in Hs. destruct i; discriminate.
  - injection Hs as <-. simpl.
    (split; [reflexivity|]); (split; [reflexivity|]); (split; [reflexivity|]).
    split; [|split; [|exact H6]].
    + intros v Hin. apply in_app_or in Hin as [Hin | [Hin | []]]; [auto | discriminate].
    + intros v req Hin. apply in_app_or in Hin as [Hin | [Hin | []]];
        [exact (H5 v req Hin) | discriminate].
  - injection Hs as <-. simpl.
    (split; [reflexivity|]); (split; [reflexivity|]); (split; [reflexivity|]).
    split; [|split; [|exact H6]].
    + intros v Hin. apply in_app_or in Hin as [Hin | [Hin | []]]; [auto | discriminate].
    + intros v req Hin. apply in_app_or in Hin as [Hin | [Hin | []]];
        [exact (H5 v req Hin) | discriminate].
  - injection Hs as <-. simpl.
    (split; [reflexivity|]); (split; [reflexivity|]); (split; [reflexivity|]).
    split; [|split; [|exact H6]].
    + intros v Hin. apply in_app_or in Hin as [Hin | [Hin | []]]; [auto | discriminate].
    + intros v req Hin. apply in_app_or in Hin as [Hin | [Hin | []]];
        [exact (H5 v req Hin) | discriminate].
Qed.

(** X10. With a concurrency of 0 (which [SetConcurrency] allows) the
    semaphore has no slot: [Run] starts no goroutine and makes no request,
    and from the moment it has marked a URL as visited it is blocked at the
    semaphore for good; neither [Run] nor a goroutine can take a step, so
    it never returns. *)
Theorem Run_blocks_without_a_slot (s : Spider) (acts : list Action) (st : State) :
  running s = false -> concurrency s = 0 ->
  exec (AMain :: acts) (start s) = Some st ->
  workers st = []
  /\ (forall u req, ~ In (EFetch u req) (log st))
  /\ (forall u, In (EMark u) (log st) ->
        pc st = PAcquire u
        /\ step AMain st = None
        /\ forall i a, step (AWorker i a) st = None).
Proof.
  intros Hr Hc He. simpl in He. unfold main_step in He. simpl in He.
  rewrite Hr, Hc in He. simpl in He.
  assert (Hinv : blocked_inv st).
  { refine (exec_invariant (fun _ => true) blocked_inv _ acts _ st
              (forallb_true acts) _ He).
    - intros a st1 st2 _. apply blocked_inv_step.
    - unfold blocked_inv. simpl.
      refine (conj eq_refl (conj eq_refl (conj eq_refl (conj _ (conj _ I))))).
      + intros u [].
      + intros u req []. }
  destruct Hinv as (H1 & H2 & H3 & H4 & H5 & _).
  split; [exact H1|]. split; [exact H5|].
  intros u Hin. specialize (H4 u Hin). split; [exact H4|].
  destruct st as [sp p cap len ws lg]. simpl in *. subst. split.
  - reflexivity.
  - intros i a. unfold step. simpl. now destruct i.
Qed.

(** X10 on the default spider with its concurrency set to 0 and one URL. *)
Lemma Run_blocks_without_a_slot_witness :
  let s := AddStartURL "http://a/" (SetConcurrency 0 NewDefaultSpider) in
  match exec (AMain :: repeat AMain 4) (start s) with
  | Some st => pc st = PAcquire "http://a/" /\ step AMain st = None /\ workers st = []
  | None => False
  end.
Proof.
  intros s. destruct (exec (AMain :: repeat AMain 4) (start s)) as [st|] eqn:He.
  - destruct (Run_blocks_without_a_slot s (repeat AMain 4) st eq_refl eq_refl He)
      as (Hw & _ & Hm).
    assert (Hin : In (EMark "http://a/") (log st)).
    { vm_compute in He. injection He as <-. simpl. auto. }
    destruct (Hm _ Hin) as (Hp & Hs & _). exact (conj Hp (conj Hs Hw)).
  - vm_compute in He. discriminate.
Defined.

Lemma panicked_inv_step (a : Action) (st st' : State) :
  panicked_inv st -> step a st = Some st' -> panicked_inv st'.
Proof.
  intros (H1 & H2 & H3 & H4 & H5) Hs.
  destruct st as [sp p cap len ws lg]. simpl in *. subst ws p. destruct a.
  - discriminate.
  - unfold step in Hs. simpl in Hs. destruct i; discriminate.
  - injection Hs as <-. unfold panicked_inv. simpl. rewrite popped_app, H3. simpl.
    repeat split; auto.
    intros v req Hin. apply in_app_or in Hin as [Hin | [Hin | []]];
      [exact (H4 v req Hin) | discriminate].
  - injection Hs as <-. unfold panicked_inv. simpl. rewrite popped_app, H3. simpl.
    repeat split; auto.
    intros v req Hin. apply in_app_or in Hin as [Hin | [Hin | []]];
      [exact (H4 v req Hin) | discriminate].
  - injection Hs as <-. unfold panicked_inv. simpl. rewrite popped_app, H3. simpl.
    repeat split; auto.
    intros v req Hin. apply in_app_or in Hin as [Hin | [Hin | []]];
      [exact (H4 v req Hin) | discriminate].
Qed.

(** X11. With a negative concurrency (which [NewSpider] and
    [SetConcurrency] both accept) [Run] panics where it makes the
    semaphore: it takes no URL from the queue, starts no goroutine and makes
    no request, and the deferred reset leaves the spider not running. *)
Theorem Run_panics_on_negative_concurrency
    (s : Spider) (acts : list Action) (st : State) :
  running s = false -> concurrency s < 0 ->
  exec (AMain :: acts) (start s) = Some st ->
  pc st = PPanicked
  /\ workers st = []
  /\ popped (log st) = []
  /\ (forall u req, ~ In (EFetch u req) (log st))
  /\ IsRunning (spider st) = false.
Proof.
  intros Hr Hc He. simpl in He. unfold main_step in He. simpl in He.
  apply Z.ltb_lt in Hc. rewrite Hr, Hc in He. simpl in He.
  refine (exec_invariant (fun _ => true) panicked_inv _ acts _ st
            (forallb_true acts) _ He).
  - intros a st1 st2 _. apply panicked_inv_step.
  - unfold panicked_inv. simpl.
    refine (conj eq_refl (conj eq_refl (conj eq_refl (conj _ eq_refl)))).
    intros u req [].
Qed.

(** X11 on a spider built with a concurrency of -2. *)
Lemma Run_panics_on_negative_concurrency_witness :
  let s := AddStartURL "http://a/" (NewSpider (mkSpiderConfig 3 (-2) "" 0 0)) in
  match exec (AMain :: [AAddStartURL "http://b/"]) (start s) with
  | Some st => pc st = PPanicked /\ popped (log st) = []
  | None => False
  end.
Proof.
  intros s. destruct (exec (AMain :: [AAddStartURL "http://b/"]) (start s)) as [st|] eqn:He.
  - destruct (Run_panics_on_negative_concurrency s _ st eq_refl eq_refl He)
      as (Hp & _ & Hq & _).
    exact (conj Hp Hq).
  - vm_compute in He. discriminate.
Defined.

Lemma step_with_depth (d : Z) (a : Action) (st : State) :
  step a (with_depth d st) = option_map (with_depth d) (step a st).
Proof.
  destruct st as [sp p cap len ws lg].
  destruct sp as [tmo dep con vis que ua del ond run wgc]. destruct a.
  - unfold step, main_step, with_depth, isVisited, SetMaxDepth. simpl.
    destruct p; simpl;
      repeat match goal with
             | |- context [if ?b then _ else _] => destruct b
             | |- context [match ?q with [] => _ | _ :: _ => _ end] => destruct q
             end; reflexivity.
  - unfold step, with_depth. simpl.
    destruct (nth_error ws i) as [w|]; [|reflexivity].
    match goal with
    | |- context [worker_step ?sp' w a] =>
        change (worker_step sp' w a)
          with (worker_step (mkSpider tmo dep con vis que ua del ond run wgc) w a)
    end.
    destruct (worker_step (mkSpider tmo dep con vis que ua del ond run wgc) w a)
      as [[[stage ev] released]|]; [|reflexivity].
    destruct released; [destruct (0 <? len)|]; reflexivity.
  - reflexivity.
  - reflexivity.
  - reflexivity.
Qed.

(** X12. [Run] never reads the depth: on a spider whose depth was set with
    [SetMaxDepth], every schedule does step by step what it does on the
    spider as it was, with the same log, and so the same requests; the
    two states differ in the depth field only. *)
Theorem Run_ignores_maxDepth (d : Z) (s : Spider) (acts : list Action) :
  exec acts (start (SetMaxDepth d s)) = option_map (with_depth d) (exec acts (start s))
  /\ (forall st, exec acts (start s) = Some st ->
        exists st', exec acts (start (SetMaxDepth d s)) = Some st'
                    /\ log st' = log st /\ pc st' = pc st /\ workers st' = workers st
                    /\ queue (spider st') = queue (spider st)
                    /\ visited (spider st') = visited (spider st)).
Proof.
  assert (H : forall st,
             exec acts (with_depth d st) = option_map (with_depth d) (exec acts st)).
  { induction acts as [|a acts IH]; intros st; simpl; [reflexivity|].
    rewrite step_with_depth. destruct (step a st) as [st1|]; simpl; [apply IH | reflexivity]. }
  split.
  - exact (H (start s)).
  - intros st He. exists (with_depth d st). split.
    + change (start (SetMaxDepth d s)) with (with_depth d (start s)).
      rewrite H, He. reflexivity.
    + repeat split.
Qed.

End Slots.

(** ** [crawlURL] and the handler *)

Section Handler.
Import crawlers.

(** X13. [crawlURL] calls the registered handler at most once, with the
    URL as it was given, and exactly when the URL parses, the answer to the
    request has status 200 and its body parses to the document handed
    over. It returns nil exactly when all this went well and the handler,
    if one is registered, returned nil. *)
Theorem crawlURL_calls_the_handler
    (s : Spider) (u : string) (w : World) (doc : Document) (v : string) :
  (In (EvOnDocument doc v) (calls w (crawlURL s u))
   <-> v = u /\ onDocument s = true /\ parses u = true
       /\ exists body, http w (request_for (userAgent s) u) = Response StatusOK body
                       /\ goquery w body = inr doc)
  /\ (count is_on_document (calls w (crawlURL s u)) <= 1)%nat
  /\ (result w (crawlURL s u) = None
      <-> parses u = true
          /\ exists body d, http w (request_for (userAgent s) u) = Response StatusOK body
                            /\ goquery w body = inr d
                            /\ (onDocument s = true -> handler w d u = None)).
Proof.
  unfold parses, crawlURL, NewRequest, request_for, SetUserAgent, StatusOK.
  destruct (url.Parse u) as [e|p]; simpl.
  { unfold calls, result, count. simpl. split; [|split; [lia|]].
    - split; [intros [] | intros (_ & _ & H & _); discriminate].
    - split; [discriminate | intros [H _]; discriminate]. }
  unfold calls, result. simpl.
  destruct (http w {| Method := "GET"; URL := u; HeaderUserAgent := userAgent s |})
    as [msg | code body] eqn:Eh; simpl.
  { unfold count. simpl. split; [|split; [lia|]].
    - split; [intros [H | []]; discriminate | intros (_ & _ & _ & b & H & _); discriminate].
    - split; [discriminate | intros (_ & b & d0 & H & _); discriminate]. }
  destruct (code =? 200) eqn:Ec; simpl.
  2:{ apply Z.eqb_neq in Ec. unfold count. simpl. split; [|split; [lia|]].
      - split; [intros [H | []]; discriminate
               | intros (_ & _ & _ & b & [= -> _] & _); contradiction].
      - split; [discriminate | intros (_ & b & d0 & [= -> _] & _); contradiction]. }
  apply Z.eqb_eq in Ec. subst code.
  destruct (goquery w body) as [msg | d0] eqn:Eg; simpl.
  { unfold count. simpl. split; [|split; [lia|]].
    - split; [intros [H | [H | []]]; discriminate
             | intros (_ & _ & _ & b & [= <-] & H); congruence].
    - split; [discriminate | intros (_ & b & d1 & [= <-] & H & _); congruence]. }
  destruct (onDocument s) eqn:Eo; simpl.
  2:{ unfold count. simpl. split; [|split; [lia|]].
      - split; [intros [H | [H | []]]; discriminate
               | intros (_ & H & _); discriminate].
      - split; [intros _ | reflexivity]. split; [reflexivity|].
        exists body, d0. repeat split; auto. discriminate. }
  destruct (handler w d0 u) as [msg|] eqn:Ehd; simpl.
  - unfold count. simpl. split; [|split; [lia|]].
    + split.
      * intros [H | [H | [H | []]]]; try discriminate. injection H as <- <-.
        repeat split; auto. now exists body.
      * intros (-> & _ & _ & b & [= <-] & H). rewrite Eg in H. injection H as <-. auto.
    + split; [discriminate|].
      intros (_ & b & d1 & [= <-] & H & Hn). rewrite Eg in H. injection H as <-.
      rewrite Ehd in Hn. specialize (Hn eq_refl). discriminate.
  - unfold count. simpl. split; [|split; [lia|]].
    + split.
      * intros [H | [H | [H | []]]]; try discriminate. injection H as <- <-.
        repeat split; auto. now exists body.
      * intros (-> & _ & _ & b & [= <-] & H). rewrite Eg in H. injection H as <-. auto.
    + split; [intros _ | reflexivity]. split; [reflexivity|].
      exists body, d0. repeat split; auto.
Qed.

End Handler.

(** ** More about the validators *)

Section MoreValidators.

(** X14. For an IPv4 address, [validateIP] gives one reason, the first
    that applies of: loopback for 127/8; private for 10/8, 172.16/12 and
    192.168/16; link-local for 169.254/16; multicast for 224/4; every other
    address passes, 0.0.0.0, 100.64/10 and 255.255.255.255 among them. The
    IPv4-mapped IPv6 form ::ffff:a.b.c.d is judged as a.b.c.d. *)
Theorem validateIP_ipv4_reasons (a b c d : Z) :
  0 <= a < 256 -> 0 <= b < 256 ->
  libs.validateIP [a; b; c; d] = ipv4_reason a b
  /\ libs.validateIP (net.v4InV6Prefix ++ [a; b; c; d])%list = libs.validateIP [a; b; c; d].
Proof.
  intros Ha Hb. split; [|reflexivity].
  unfold libs.validateIP, ipv4_reason, net.IsLoopback, net.IsPrivate,
    net.IsLinkLocalUnicast, net.IsMulticast. simpl. unfold net.byte_at. simpl.
  rewrite (land_240_16 b Hb), (land_240_224 a Ha).
  destruct (a =? 127) eqn:E127; [reflexivity|].
  rewrite <- !andb_assoc. reflexivity.
Qed.

(** X14 at 172.20.0.1, at its mapped form, and at 0.0.0.0. *)
Lemma validateIP_ipv4_reasons_witness :
  libs.validateIP [172; 20; 0; 1] = Some libs.ErrPrivate
  /\ libs.validateIP (net.v4InV6Prefix ++ [172; 20; 0; 1])%list = libs.validateIP [172; 20; 0; 1]
  /\ libs.validateIP [0; 0; 0; 0] = None.
Proof.
  destruct (validateIP_ipv4_reasons 172 20 0 1 ltac:(lia) ltac:(lia)) as [H1 H2].
  destruct (validateIP_ipv4_reasons 0 0 0 0 ltac:(lia) ltac:(lia)) as [H3 _].
  exact (conj H1 (conj H2 H3)).
Defined.

Lemma validateIPs_first (ips : list net.IP) (ip : net.IP) (why : libs.IPError) :
  libs.validateIPs ips = Some (libs.ErrBlockedIP ip why)
  <-> exists l1 l2, ips = (l1 ++ ip :: l2)%list
                    /\ Forall (fun x => libs.validateIP x = None) l1
                    /\ libs.validateIP ip = Some why.
Proof.
  induction ips as [|x rest IH]; simpl.
  - split; [discriminate | intros (l1 & l2 & H & _); destruct l1; discriminate].
  - destruct (libs.validateIP x) as [e|] eqn:Ex.
    + split.
      * intros [= <- <-]. exists [], rest. repeat split; auto.
      * intros (l1 & l2 & H & Hall & Hv). destruct l1 as [|y l1]; simpl in H.
        -- injection H as <- <-. congruence.
        -- injection H as <- _. inversion Hall; subst. congruence.
    + rewrite IH. split.
      * intros (l1 & l2 & -> & Hall & Hv). exists (x :: l1), l2. repeat split; auto.
      * intros (l1 & l2 & H & Hall & Hv). destruct l1 as [|y l1]; simpl in H.
        -- injection H as <- <-. congruence.
        -- injection H as <- ->. inversion Hall; subst. exists l1, l2. auto.
Qed.

(** X15. Of the addresses a hostname resolves to, [validateHostname]
    reports the first, in the order of the resolver, that [validateIP]
    blocks, with the reason [validateIP] gives; the addresses after it are
    not looked at. *)
Theorem validateHostname_reports_first_blocked
    (hostname : string) (w : World) (ip : net.IP) (why : libs.IPError) :
  hostname <> "" -> libs.isLocalhost hostname = false ->
  (result w (libs.validateHostname hostname) = Some (libs.ErrBlockedIP ip why)
   <-> exists l1 l2, dns w hostname = inr (l1 ++ ip :: l2)%list
                     /\ Forall (fun x => libs.validateIP x = None) l1
                     /\ libs.validateIP ip = Some why).
Proof.
  intros Hne Hl. unfold libs.validateHostname.
  rewrite (eqb_nonempty _ Hne), Hl. unfold result. simpl.
  destruct (dns w hostname) as [e|ips]; simpl.
  - split; [discriminate | intros (l1 & l2 & H & _); discriminate].
  - rewrite validateIPs_first. split.
    + intros (l1 & l2 & -> & H). exists l1, l2. auto.
    + intros (l1 & l2 & [= ->] & H). exists l1, l2. auto.
Qed.

(** X15 on a name resolved to a public address, then 10.0.0.1, then
    127.0.0.1: the private one is reported. *)
Lemma validateHostname_reports_first_blocked_witness :
  result (world_of [public_ip; [10; 0; 0; 1]; [127; 0; 0; 1]] 200 "")
    (libs.validateHostname "example.com")
  = Some (libs.ErrBlockedIP [10; 0; 0; 1] libs.ErrPrivate).
Proof.
  apply (validateHostname_reports_first_blocked "example.com"
           (world_of [public_ip; [10; 0; 0; 1]; [127; 0; 0; 1]] 200 "")
           [10; 0; 0; 1] libs.ErrPrivate ltac:(discriminate) eq_refl).
  exists [public_ip], [[127; 0; 0; 1]]. split; [reflexivity|]. split.
  - constructor; [reflexivity | constructor].
  - reflexivity.
Defined.

End MoreValidators.

(** ** The two URL validators side by side *)

Section TwoValidators.

Lemma lower_byte_idem (c : ascii) :
  strings.lower_byte (strings.lower_byte c) = strings.lower_byte c.
Proof. destruct c as [[] [] [] [] [] [] [] []]; reflexivity. Qed.

Lemma ToLower_idem (s : string) : strings.ToLower (strings.ToLower s) = strings.ToLower s.
Proof.
  induction s as [|c s IH]; simpl; [reflexivity|]. now rewrite lower_byte_idem, IH.
Qed.

Lemma setPath_Scheme (u u' : url.URL) (p : string) :
  url.setPath u p = inr u' -> url.Scheme u' = url.Scheme u.
Proof.
  unfold url.setPath. destruct (url.unescape p url.encodePath); [discriminate|].
  intros [= <-]. reflexivity.
Qed.

Lemma setFragment_Scheme (u u' : url.URL) (f : string) :
  url.setFragment u f = inr u' -> url.Scheme u' = url.Scheme u.
Proof.
  unfold url.setFragment. destruct (url.unescape f url.encodeFragment); [discriminate|].
  intros [= <-]. reflexivity.
Qed.

Lemma parse_authority_path_Scheme (sch : string) (force : bool) (query rest : string)
    (via : bool) (u : url.URL) :
  url.parse_authority_path sch force query rest via = inr u -> url.Scheme u = sch.
Proof.
  unfold url.parse_authority_path.
  repeat match goal with
         | |- context [if ?b then _ else _] => destruct b
         | |- context [match url.parseAuthority ?a with _ => _ end] =>
             destruct (url.parseAuthority a) as [?|[? ?]]
         end; try discriminate; intros H; apply setPath_Scheme in H; exact H.
Qed.

(** [url.Parse] lower-cases the scheme. *)
Lemma Parse_Scheme_lower (raw : string) (u : url.URL) :
  url.Parse raw = inr u -> strings.ToLower (url.Scheme u) = url.Scheme u.
Proof.
  unfold url.Parse. destruct (strings.Cut raw "#") as [[before frag] found].
  destruct (url.parse before false) as [e|u0] eqn:Hp; [discriminate|].
  assert (H0 : strings.ToLower (url.Scheme u0) = url.Scheme u0).
  { clear - Hp. unfold url.parse in Hp.
    destruct (url.stringContainsCTLByte before); [discriminate|].
    destruct (String.eqb before "" && false); [discriminate|].
    destruct (String.eqb before "*"); [injection Hp as <-; reflexivity|].
    destruct (url.getScheme before) as [e|[scheme0 rest0]]; [discriminate|].
    destruct (if strings.HasSuffix rest0 "?" && (strings.CountByte rest0 "?" =? 1)
              then (strings.upto (len rest0 - 1) rest0, true, "")
              else let '(before0, after, _) := strings.Cut rest0 "?" in
                   (before0, false, after)) as [[rest force] query].
    destruct (negb (strings.HasPrefix rest "/")).
    - destruct (negb (String.eqb (strings.ToLower scheme0) "")).
      + injection Hp as <-. simpl. apply ToLower_idem.
      + simpl in Hp. destruct (strings.Cut rest "/") as [[segment ?] ?].
        destruct (strings.Contains segment ":"); [discriminate|].
        apply parse_authority_path_Scheme in Hp. rewrite Hp. apply ToLower_idem.
    - apply parse_authority_path_Scheme in Hp. rewrite Hp. apply ToLower_idem. }
  destruct (String.eqb frag "").
  - intros [= <-]. exact H0.
  - intros H. apply setFragment_Scheme in H. now rewrite H.
Qed.

Lemma ToLower_empty (s : string) : strings.ToLower s = "" -> s = "".
Proof. destruct s; [reflexivity | discriminate]. Qed.

Lemma Hostname_of_no_host (u : url.URL) : url.Host u = "" -> url.Hostname u = "".
Proof. unfold url.Hostname. intros ->. reflexivity. Qed.

(** No name [isLocalhost] knows begins like a private address. *)
Lemma prefixed_not_localhost (h : string) :
  existsb (fun p => strings.HasPrefix (strings.ToLower h) p) basic.privatePrefixes = true ->
  libs.isLocalhost h = false.
Proof.
  intros Hp. destruct (libs.isLocalhost h) eqn:El; [|reflexivity].
  apply isLocalhost_spec in El. simpl in El.
  destruct El as [E | [E | [E | [E | [E | []]]]]]; rewrite <- E in Hp;
    vm_compute in Hp; discriminate.
Qed.

(** X16. The validator of package [crawlers] against the one of package
    [libs]. Whatever the first rejects for being empty, unparsable, of a
    wrong scheme, without a host or a localhost name, the second rejects
    too, with the matching reason and before any lookup. A host the first
    takes for a private address by its first characters is resolved by the
    second, which judges the addresses. And what the first accepts, the
    second resolves, unless the host is only a port, or is 0.0.0.0 or ::,
    which the first lets pass and the second rejects. *)
Theorem validators_side_by_side (rawURL : string) :
  match basic.ValidateURL rawURL with
  | Some basic.ErrEmptyURL =>
      libs.ValidateURL rawURL = Ret (Some libs.ErrEmptyURL)
  | Some (basic.ErrInvalidFormat e) =>
      libs.ValidateURL rawURL = Ret (Some (libs.ErrInvalidFormat e))
  | Some basic.ErrNoScheme =>
      libs.ValidateURL rawURL = Ret (Some (libs.ErrDisallowedScheme ""))
  | Some (basic.ErrSchemeNotAllowed scheme) =>
      libs.ValidateURL rawURL = Ret (Some (libs.ErrDisallowedScheme scheme))
  | Some basic.ErrNoHost =>
      libs.ValidateURL rawURL = Ret (Some libs.ErrEmptyHostname)
  | Some basic.ErrLocalhost =>
      libs.ValidateURL rawURL = Ret (Some libs.ErrLocalhost)
  | Some basic.ErrPrivateIP =>
      exists u k, url.Parse rawURL = inr u
                  /\ libs.ValidateURL rawURL = LookupIP (url.Hostname u) k
  | None =>
      exists u, url.Parse rawURL = inr u
                /\ ((url.Hostname u = ""
                     /\ libs.ValidateURL rawURL = Ret (Some libs.ErrEmptyHostname))
                    \/ (In (strings.ToLower (url.Hostname u)) ["0.0.0.0"; "::"]
                        /\ libs.ValidateURL rawURL = Ret (Some libs.ErrLocalhost))
                    \/ exists k, libs.ValidateURL rawURL = LookupIP (url.Hostname u) k)
  end.
Proof.
  unfold basic.ValidateURL, libs.ValidateURL.
  destruct (String.eqb rawURL "") eqn:Ee; [reflexivity|].
  destruct (url.Parse rawURL) as [e|u] eqn:Hp; [reflexivity|].
  rewrite (Parse_Scheme_lower _ _ Hp).
  set (h := url.Hostname u).
  remember (existsb (fun p => strings.HasPrefix (strings.ToLower h) p)
              basic.privatePrefixes) as pre eqn:Epre.
  symmetry in Epre.
  destruct (String.eqb_spec (url.Scheme u) "") as [Hs|Hs].
  { rewrite Hs. reflexivity. }
  destruct (String.eqb_spec (url.Scheme u) "http") as [Hh|Hh];
    destruct (String.eqb_spec (url.Scheme u) "https") as [Hhs|Hhs]; simpl.
  4:{ now rewrite validateScheme_other. }
  all: assert (Hv : libs.validateScheme (url.Scheme u) = None)
         by (apply validateScheme_allowed; auto);
       rewrite Hv; clear Hv.
  all: unfold libs.validateHostname.
  all: destruct (String.eqb_spec (url.Host u) "") as [Hhost|Hhost];
         [assert (Hh0 : h = "") by (apply Hostname_of_no_host; exact Hhost);
          rewrite Hh0; reflexivity|].
  all: destruct (String.eqb_spec (strings.ToLower h) "localhost") as [E1|E1];
         [assert (Hl : libs.isLocalhost h = true)
            by (apply isLocalhost_spec; rewrite E1; simpl; auto);
          assert (Hn : h <> "") by (intros Hn; rewrite Hn in E1; discriminate);
          rewrite (eqb_nonempty _ Hn), Hl; reflexivity|].
  all: destruct (String.eqb_spec (strings.ToLower h) "127.0.0.1") as [E2|E2];
         [assert (Hl : libs.isLocalhost h = true)
            by (apply isLocalhost_spec; rewrite E2; simpl; auto);
          assert (Hn : h <> "") by (intros Hn; rewrite Hn in E2; discriminate);
          rewrite (eqb_nonempty _ Hn), Hl; reflexivity|].
  all: destruct (String.eqb_spec (strings.ToLower h) "::1") as [E3|E3];
         [assert (Hl : libs.isLocalhost h = true)
            by (apply isLocalhost_spec; rewrite E3; simpl; auto);
          assert (Hn : h <> "") by (intros Hn; rewrite Hn in E3; discriminate);
          rewrite (eqb_nonempty _ Hn), Hl; reflexivity|].
  all: cbn [orb].
  all: destruct pre.
  all: try (assert (Hn : h <> "")
              by (intros Hn; rewrite Hn in Epre; vm_compute in Epre; discriminate);
            rewrite (eqb_nonempty _ Hn), (prefixed_not_localhost _ Epre);
            exists u; eexists; split; reflexivity).
  all: exists u; split; [reflexivity|].
  all: destruct (String.eqb_spec h "") as [Hn|Hn]; [left; split; [exact Hn | reflexivity]|].
  all: right.
  all: destruct (libs.isLocalhost h) eqn:El;
         [left; split; [|reflexivity] | right; eexists; reflexivity].
  all: apply isLocalhost_spec in El; simpl in El; simpl;
       destruct El as [E | [E | [E | [E | [E | []]]]]]; auto; congruence.
Qed.

(** The cases of X16 in which the two disagree are real. *)
Lemma validators_disagree :
  basic.ValidateURL "http://0.0.0.0/" = None
  /\ libs.ValidateURL "http://0.0.0.0/" = Ret (Some libs.ErrLocalhost)
  /\ basic.ValidateURL "http://:80/" = None
  /\ libs.ValidateURL "http://:80/" = Ret (Some libs.ErrEmptyHostname)
  /\ basic.ValidateURL "http://10.example.com/" = Some basic.ErrPrivateIP.
Proof. repeat split; vm_compute; reflexivity. Qed.

End TwoValidators.

(** ** [NewSpider] and [ValidateCrawlerConfig] *)

Section SpiderSettings.
Import crawlers.

(** X17. The spider [NewSpider] builds has a configuration
    [ValidateCrawlerConfig] accepts exactly when the depth given is 0 or
    from 1 to 10 and the concurrency given is 0 or from 1 to 100: the user
    agent is never a reason, an empty one is replaced. And a configuration
    that [ValidateCrawlerConfig] accepts is taken over as it is, and gives
    a spider on which [Run] can be called: not running, no goroutine
    pending, at least one slot. *)
Theorem NewSpider_meets_ValidateCrawlerConfig (config : SpiderConfig) :
  (settings.ValidateCrawlerConfig (userAgent (NewSpider config))
     (maxDepth (NewSpider config)) (concurrency (NewSpider config)) = None
   <-> (MaxDepth config = 0 \/ 1 <= MaxDepth config <= 10)
       /\ (Concurrency config = 0 \/ 1 <= Concurrency config <= 100))
  /\ (settings.ValidateCrawlerConfig (UserAgent config) (MaxDepth config)
        (Concurrency config) = None ->
      userAgent (NewSpider config) = UserAgent config
      /\ maxDepth (NewSpider config) = MaxDepth config
      /\ concurrency (NewSpider config) = Concurrency config
      /\ running (NewSpider config) = false
      /\ wg (NewSpider config) = 0
      /\ 0 < concurrency (NewSpider config)).
Proof.
  destruct config as [d c ua dl t]. unfold settings.ValidateCrawlerConfig. simpl. split.
  - assert (Hua : String.eqb (if String.eqb ua "" then "Mozilla/5.0 (compatible; GolwarcBot/1.0)"
                              else ua) "" = false).
    { destruct (String.eqb_spec ua ""); [reflexivity | now apply String.eqb_neq]. }
    rewrite Hua.
    destruct (Z.eqb_spec d 0), (Z.eqb_spec c 0); subst; simpl;
      repeat match goal with
             | |- context [?x <? ?y] => destruct (Z.ltb_spec x y)
             | |- context [?x >? ?y] => destruct (Z.gtb_spec x y)
             end; simpl; split; intros; try discriminate; try reflexivity;
      try (exfalso; lia); intuition lia.
  - destruct (String.eqb_spec ua ""); [discriminate|].
    destruct (Z.ltb_spec d 1), (Z.gtb_spec d 10), (Z.ltb_spec c 1), (Z.gtb_spec c 100);
      simpl; try discriminate. intros _.
    destruct (Z.eqb_spec d 0), (Z.eqb_spec c 0); try lia.
    repeat split; lia.
Qed.

(** X17 on the zero configuration and on one that is accepted as given. *)
Lemma NewSpider_meets_ValidateCrawlerConfig_witness :
  settings.ValidateCrawlerConfig (userAgent (NewSpider (mkSpiderConfig 0 0 "" 0 0)))
    (maxDepth (NewSpider (mkSpiderConfig 0 0 "" 0 0)))
    (concurrency (NewSpider (mkSpiderConfig 0 0 "" 0 0))) = None
  /\ concurrency (NewSpider (mkSpiderConfig 2 8 "bot" 0 0)) = 8.
Proof.
  split.
  - apply (proj1 (NewSpider_meets_ValidateCrawlerConfig (mkSpiderConfig 0 0 "" 0 0))).
    split; left; reflexivity.
  - exact (proj1 (proj2 (proj2 (proj2 (NewSpider_meets_ValidateCrawlerConfig
                                         (mkSpiderConfig 2 8 "bot" 0 0)) eq_refl)))).
Defined.

End SpiderSettings.

(** ** URLs added late *)

Section Late.
Import crawlers.

Lemma loop_left_step (a : Action) (st st' : State) :
  loop_left (pc st) = true -> step a st = Some st' ->
  loop_left (pc st') = true
  /\ popped (log st') = popped (log st)
  /\ length (workers st') = length (workers st)
  /\ exists added, pushed (log st') = (pushed (log st) ++ added)%list
                   /\ queue (spider st') = (queue (spider st) ++ added)%list.
Proof.
  intros Hl Hs. destruct st as [sp p cap len ws lg]. simpl in *. destruct a.
  - unfold step, main_step in Hs. simpl in Hs.
    destruct p; try discriminate.
    destruct (wg sp =? 0); [|discriminate]. injection Hs as <-. simpl.
    rewrite popped_app, pushed_app, !app_nil_r.
    repeat split. exists []. now rewrite !app_nil_r.
  - unfold step in Hs. simpl in Hs.
    destruct (nth_error ws i) as [w|] eqn:Hnth; [|discriminate].
    destruct (worker_step sp w a) as [[[stage ev] released]|] eqn:Hw; [|discriminate].
    destruct (worker_step_queue _ _ _ _ _ _ Hw) as [Hpop Hpush].
    assert (Hlen : length (set_nth i (mkWorker (w_url w) stage) ws) = length ws).
    { clear - Hnth. revert i Hnth. induction ws as [|x ws IH]; intros [|i] H;
        simpl in H; try discriminate; unfold set_nth; simpl; [reflexivity|].
      specialize (IH i H). unfold set_nth in IH. now rewrite IH. }
    destruct released; [destruct (0 <? len); [|discriminate]|];
      injection Hs as <-; simpl; rewrite popped_app, pushed_app, Hpop, Hpush, !app_nil_r;
      (split; [exact Hl|]); (split; [reflexivity|]); (split; [exact Hlen|]);
      exists []; now rewrite !app_nil_r.
  - injection Hs as <-. simpl. rewrite popped_app, pushed_app. simpl.
    rewrite app_nil_r. repeat split; auto. now exists [u].
  - injection Hs as <-. simpl. rewrite popped_app, pushed_app. simpl.
    rewrite !app_nil_r. repeat split; auto. exists []. now rewrite !app_nil_r.
  - injection Hs as <-. simpl. rewrite popped_app, pushed_app. simpl.
    rewrite !app_nil_r. repeat split; auto. exists []. now rewrite !app_nil_r.
Qed.

(** X18. [Run] leaves its loop the first time it finds the queue empty,
    also while goroutines are still at work; from then on it takes no URL
    from the queue and starts no goroutine, whatever is added: a URL that
    [AddStartURL] adds after that, say from the handler, stays in the queue
    when [Run] returns. *)
Theorem Run_takes_nothing_after_the_loop (st : State) (acts : list Action) (st' : State) :
  loop_left (pc st) = true ->
  exec acts st = Some st' ->
  loop_left (pc st') = true
  /\ popped (log st') = popped (log st)
  /\ length (workers st') = length (workers st)
  /\ exists added, pushed (log st') = (pushed (log st) ++ added)%list
                   /\ queue (spider st') = (queue (spider st) ++ added)%list.
Proof.
  revert st. induction acts as [|a acts IH]; intros st Hl He; simpl in He.
  - injection He as <-. repeat split; auto. exists []. now rewrite !app_nil_r.
  - destruct (step a st) as [st1|] eqn:Hs; [|discriminate].
    destruct (loop_left_step a st st1 Hl Hs) as (Hl1 & Hp1 & Hw1 & added1 & Hpu1 & Hq1).
    destruct (IH st1 Hl1 He) as (Hl2 & Hp2 & Hw2 & added2 & Hpu2 & Hq2).
    split; [exact Hl2|]. split; [congruence|]. split; [congruence|].
    exists (added1 ++ added2)%list. rewrite Hpu2, Hpu1, Hq2, Hq1, !app_assoc. auto.
Qed.

(** X18 on a run in which the handler adds a link while its page is
    processed: [Run] has left the loop by then, and returns with the link
    still queued and never requested. *)
Lemma Run_takes_nothing_after_the_loop_witness :
  let s := AddStartURL "http://a/" (OnDocument NewDefaultSpider) in
  let before := repeat AMain 8 in
  let after :=
    [AWorker 0 (AHttp (Response 200 "")); AWorker 0 (ADoc (inr (mkDocument "")));
     AAddStartURL "http://a/next"; AWorker 0 (AHandler None);
     AWorker 0 ANone; AWorker 0 ANone; AWorker 0 ANone; AMain] in
  match exec before (start s) with
  | Some st =>
      match exec after st with
      | Some st' =>
          pc st = PWait /\ pc st' = PReturned None
          /\ popped (log st') = ["http://a/"]
          /\ queue (spider st') = ["http://a/next"]
      | None => False
      end
  | None => False
  end.
Proof.
  intros s before after.
  destruct (exec before (start s)) as [st|] eqn:He; [|vm_compute in He; discriminate].
  destruct (exec after st) as [st'|] eqn:He'.
  - assert (Hpc : pc st = PWait) by (vm_compute in He; injection He as <-; reflexivity).
    assert (Hl : loop_left (pc st) = true) by (rewrite Hpc; reflexivity).
    destruct (Run_takes_nothing_after_the_loop st after st' Hl He')
      as (_ & Hpop & _ & _).
    split; [exact Hpc|].
    assert (Hst : popped (log st) = ["http://a/"] /\ queue (spider st) = [])
      by (vm_compute in He; injection He as <-; split; reflexivity).
    rewrite Hpop. destruct Hst as [-> Hq].
    vm_compute in He. injection He as <-. vm_compute in He'. injection He' as <-.
    split; [reflexivity|]. split; reflexivity.
  - vm_compute in He. injection He as <-. vm_compute in He'. discriminate.
Defined.

End Late.
